(** * Construction-document assistant: chunker, store, retrieval search,
      calculation engine and agent loop

    A shallow embedding of the orchestration core of the repository
    ([server/documentProcessor.ts], [server/db.ts] and [server/agent.ts])
    together with the properties its specification states about it.

    The first part holds the model, one module per source unit:
    [JsString] and [JsNumber] (the string and number primitives the code
    calls), [Chunker], [Db], [Search], [Js] (exceptions and calls out of
    the program), [Calc] and [Agent]; then the contracts in the words of
    the specification and the concrete scenarios. The second part holds
    the properties.

    Conventions.
    - A JavaScript string is a Rocq [string]; a character stands for the
      code unit of the same number, so the texts covered are those over
      U+0000..U+00FF.
    - Array indices and the integers the chunker computes with are [Z]
      (the window start can become negative); database [int] columns are
      [Z]; JavaScript numbers of the calculation engine are binary64
      [float]s.
    - [undefined] and SQL [NULL] are [None].
    - A loop that need not terminate takes fuel, one unit per iteration.
    - The database is a value passed to each operation; the language
      model is a function from the parameters of an invocation to its
      result; the regular expression engine, dynamic evaluation and the
      owner notification are calls a computation makes ([Js.Prog]). *)

From Stdlib Require Import ZArith QArith Qabs List String Ascii Bool Lia Floats
  DecimalString Uint63 Sorted Permutation.
Import ListNotations.
Open Scope string_scope.
Open Scope Z_scope.

(** ** JavaScript string primitives *)
Module JsString.

(** [s.length] *)
Definition len (s : string) : Z := Z.of_nat (String.length s).

(** White space and line terminators below U+0100: TAB, LF, VT, FF, CR,
    SPACE and NBSP. It is the class [\s] matches and [trim] strips. *)
Definition isWhiteSpace (c : ascii) : bool :=
  let n := nat_of_ascii c in
  (Nat.leb 9 n && Nat.leb n 13) || Nat.eqb n 32 || Nat.eqb n 160.

Fixpoint trimStart (s : string) : string :=
  match s with
  | EmptyString => EmptyString
  | String c r => if isWhiteSpace c then trimStart r else s
  end.

Fixpoint trimEnd (s : string) : string :=
  match s with
  | EmptyString => EmptyString
  | String c r =>
      match trimEnd r with
      | EmptyString => if isWhiteSpace c then EmptyString else String c EmptyString
      | r' => String c r'
      end
  end.

(** [s.trim()] *)
Definition trim (s : string) : string := trimEnd (trimStart s).

(** The relative index resolution of [slice]: a negative index counts
    from the end, and the result is clamped to [0 .. len]. *)
Definition relIndex (n i : Z) : Z :=
  if i <? 0 then Z.max (n + i) 0 else Z.min i n.

(** [s.slice(from, to)] *)
Definition slice (s : string) (from to : Z) : string :=
  let a := relIndex (len s) from in
  let b := relIndex (len s) to in
  substring (Z.to_nat a) (Z.to_nat (Z.max (b - a) 0)) s.

(** [s.substring(0, n)] for [n >= 0] *)
Definition substring0 (s : string) (n : Z) : string :=
  substring 0 (Z.to_nat (Z.min (Z.max n 0) (len s))) s.

(** Does [pat] occur in [s] at position [i]? *)
Definition occursAt (pat s : string) (i : nat) : bool :=
  prefix pat (substring i (String.length s - i) s).

Fixpoint lastIndexDown (pat s : string) (i : nat) : Z :=
  if occursAt pat s i then Z.of_nat i
  else match i with
       | O => -1
       | S j => lastIndexDown pat s j
       end.

(** [s.lastIndexOf(pat, pos)]: the greatest index [i <= pos] at which
    [pat] occurs, or [-1]. [pos] is clamped to [0 .. len s - len pat]. *)
Definition lastIndexOf (s pat : string) (pos : Z) : Z :=
  if len s <? len pat then -1
  else lastIndexDown pat s (Z.to_nat (Z.min (Z.max pos 0) (len s - len pat))).

Fixpoint includesFrom (fuel : nat) (s pat : string) : bool :=
  prefix pat s ||
  match fuel, s with
  | S f, String _ r => includesFrom f r pat
  | _, _ => false
  end.

(** [s.includes(pat)] *)
Definition includes (s pat : string) : bool :=
  includesFrom (String.length s) s pat.

(** Lower-casing of one code unit below U+0100: A-Z, and the Latin-1
    capitals U+00C0..U+00DE except the multiplication sign U+00D7. *)
Definition lowerChar (c : ascii) : ascii :=
  let n := nat_of_ascii c in
  if (Nat.leb 65 n && Nat.leb n 90)
     || (Nat.leb 192 n && Nat.leb n 222 && negb (Nat.eqb n 215))
  then ascii_of_nat (n + 32) else c.

(** [s.toLowerCase()] *)
Fixpoint toLowerCase (s : string) : string :=
  match s with
  | EmptyString => EmptyString
  | String c r => String (lowerChar c) (toLowerCase r)
  end.

(** The scanner behind [s.split(/\s+/)]: [cur] holds the characters of
    the piece being read, in reverse; [inGap] tells that the previous
    character was white space, whose piece has been emitted already. *)
Fixpoint splitScan (s : string) (cur : list ascii) (inGap : bool) : list string :=
  match s with
  | EmptyString => [string_of_list_ascii (rev cur)]
  | String c r =>
      if isWhiteSpace c then
        if inGap then splitScan r [] true
        else string_of_list_ascii (rev cur) :: splitScan r [] true
      else splitScan r (c :: cur) false
  end.

(** [s.split(/\s+/)]: the pieces between maximal runs of white space.
    A leading or trailing run leaves an empty piece at that end, and the
    empty string splits into one empty piece. *)
Definition splitWhitespace (s : string) : list string := splitScan s [] false.

(** [s.replace(/_/g, ' ')] *)
Fixpoint underscoresToSpaces (s : string) : string :=
  match s with
  | EmptyString => EmptyString
  | String c r =>
      String (if Ascii.eqb c "_"%char then " "%char else c) (underscoresToSpaces r)
  end.

(** The line feed, ['\n'] *)
Definition LF : string := String (ascii_of_nat 10) EmptyString.

(** [parts.join(sep)] *)
Fixpoint join (sep : string) (parts : list string) : string :=
  match parts with
  | [] => ""
  | [p] => p
  | p :: rest => p ++ sep ++ join sep rest
  end.

End JsString.

(** ** The chunker of [server/documentProcessor.ts] *)
Module Chunker.
Import JsString.

Definition CHUNK_SIZE : Z := 2000.
Definition CHUNK_OVERLAP : Z := 200.

(** [['\n\n', '.\n', '. ', '\n']] *)
Definition breakPoints : list string := [LF ++ LF; "." ++ LF; ". "; LF].

(** The [for (const bp of breakPoints)] loop: the first marker whose last
    occurrence at or before [end_] lies after the window midpoint moves
    the end to just past it. The test [lastBreak > start + chunkSize / 2]
    is a comparison of reals; on integers it is the doubled inequality. *)
Fixpoint breakAt (text : string) (start chunkSize end_ : Z) (bps : list string) : Z :=
  match bps with
  | [] => end_
  | bp :: rest =>
      let lastBreak := lastIndexOf text bp end_ in
      if 2 * start + chunkSize <? 2 * lastBreak then lastBreak + len bp
      else breakAt text start chunkSize end_ rest
  end.

(** The value of [end] when the slice is taken. *)
Definition windowEnd (text : string) (chunkSize start : Z) : Z :=
  let end_ := start + chunkSize in
  if end_ <? len text then breakAt text start chunkSize end_ breakPoints else end_.

(** [start = end - overlap] *)
Definition nextStart (text : string) (chunkSize overlap start : Z) : Z :=
  windowEnd text chunkSize start - overlap.

(** The [while (start < text.length)] loop, one iteration per unit of
    fuel; [None] when the fuel runs out before the loop exits. *)
Fixpoint walk (fuel : nat) (text : string) (chunkSize overlap start : Z)
    (chunks : list string) : option (list string) :=
  match fuel with
  | O => None
  | S fuel' =>
      if start <? len text then
        walk fuel' text chunkSize overlap
          (nextStart text chunkSize overlap start)
          (chunks ++ [trim (slice text start (windowEnd text chunkSize start))])%list
      else Some chunks
  end.

(** [chunks.filter(c => c.length > 50)] *)
Definition dropTiny (chunks : list string) : list string :=
  filter (fun c => 50 <? len c) chunks.

Definition splitIntoChunks (fuel : nat) (text : string) (chunkSize overlap : Z)
    : option (list string) :=
  option_map dropTiny (walk fuel text chunkSize overlap 0 []).

End Chunker.

(** ** The relational store of [drizzle/schema.ts] and [server/db.ts] *)

(** [documentType] of a document row *)
Inductive DocumentType :=
| project_plans | specifications | standard_plans
| special_provisions | cpm_schedule | other.

Definition documentTypeName (t : DocumentType) : string :=
  match t with
  | project_plans => "project_plans"
  | specifications => "specifications"
  | standard_plans => "standard_plans"
  | special_provisions => "special_provisions"
  | cpm_schedule => "cpm_schedule"
  | other => "other"
  end.

Inductive ProcessingStatus := pending | processing | completed | failed.

(** A row of [documents] *)
Module Document.
Record t := mk {
  id : Z;
  userId : Z;
  originalName : string;
  documentType : DocumentType;
  pageCount : option Z;
  extractedText : option string;
  processingStatus : ProcessingStatus;
  createdAt : Z
}.
End Document.

(** A row of [document_chunks] *)
Module DocumentChunk.
Record t := mk {
  id : Z;
  documentId : Z;
  userId : Z;
  chunkIndex : Z;
  content : string;
  pageNumber : option Z;
  sectionTitle : option string
}.
End DocumentChunk.

(** A row of [conversations] *)
Module Conversation.
Record t := mk { id : Z; userId : Z; title : string; lastMessageAt : Z }.
End Conversation.

(** A row of [messages] *)
Module MessageRow.
Record t := mk { id : Z; conversationId : Z; userId : Z; content : string }.
End MessageRow.

(** A row of [reports] *)
Module Report.
Record t := mk { id : Z; userId : Z; title : string; content : string }.
End Report.

Module Db.

(** The tables behind the connection, each in insertion order. *)
Record Tables := mkTables {
  documents : list Document.t;
  documentChunks : list DocumentChunk.t;
  conversations : list Conversation.t;
  messages : list MessageRow.t;
  reports : list Report.t
}.

(** What [getDb()] resolves to: [None] when no database is configured. *)
Definition Connection := option Tables.

(** [ORDER BY]: a stable insertion sort under [leb]. *)
Fixpoint insertBy {A} (leb : A -> A -> bool) (x : A) (l : list A) : list A :=
  match l with
  | [] => [x]
  | y :: r => if leb x y then x :: l else y :: insertBy leb x r
  end.

Definition orderBy {A} (leb : A -> A -> bool) (l : list A) : list A :=
  fold_right (insertBy leb) [] l.

(** [desc(documents.createdAt)] *)
Definition newestFirst (a b : Document.t) : bool :=
  Document.createdAt b <=? Document.createdAt a.

(** [documentChunks.documentId, documentChunks.chunkIndex] *)
Definition byDocumentThenIndex (a b : DocumentChunk.t) : bool :=
  (DocumentChunk.documentId a <? DocumentChunk.documentId b)
  || ((DocumentChunk.documentId a =? DocumentChunk.documentId b)
      && (DocumentChunk.chunkIndex a <=? DocumentChunk.chunkIndex b)).

Definition getDocumentsByUserId (db : Connection) (userId : Z) : list Document.t :=
  match db with
  | None => []
  | Some t =>
      orderBy newestFirst
        (filter (fun d => Document.userId d =? userId) (documents t))
  end.

Definition getDocumentById (db : Connection) (id userId : Z) : option Document.t :=
  match db with
  | None => None
  | Some t =>
      hd_error (filter (fun d => (Document.id d =? id) && (Document.userId d =? userId))
                       (documents t))
  end.

Definition getChunksByDocumentId (db : Connection) (documentId : Z)
    : list DocumentChunk.t :=
  match db with
  | None => []
  | Some t =>
      orderBy (fun a b => DocumentChunk.chunkIndex a <=? DocumentChunk.chunkIndex b)
        (filter (fun c => DocumentChunk.documentId c =? documentId) (documentChunks t))
  end.

Definition getChunksByUserDocuments (db : Connection) (userId : Z)
    (documentIds : option (list Z)) : list DocumentChunk.t :=
  match db with
  | None => []
  | Some t =>
      match documentIds with
      | Some (i :: ids) =>
          orderBy byDocumentThenIndex
            (filter (fun c => (DocumentChunk.userId c =? userId)
                              && existsb (Z.eqb (DocumentChunk.documentId c)) (i :: ids))
                    (documentChunks t))
      | _ =>
          orderBy byDocumentThenIndex
            (filter (fun c => DocumentChunk.userId c =? userId) (documentChunks t))
      end
  end.

(** [deleteDocument]: the state of the store afterwards and the boolean
    the call resolves to. The first statement deletes from
    [document_chunks] by [documentId] alone; the second deletes from
    [documents] by [id] and [userId], and its [affectedRows] decides the
    result. *)
Definition deleteDocument (db : Connection) (id userId : Z) : Connection * bool :=
  match db with
  | None => (None, false)
  | Some t =>
      let chunks' :=
        filter (fun c => negb (DocumentChunk.documentId c =? id)) (documentChunks t) in
      let hit := fun d => (Document.id d =? id) && (Document.userId d =? userId) in
      let affectedRows := Z.of_nat (List.length (filter hit (documents t))) in
      (Some (mkTables (filter (fun d => negb (hit d)) (documents t)) chunks'
                      (conversations t) (messages t) (reports t)),
       0 <? affectedRows)
  end.

(** [deleteConversation], the sibling of [deleteDocument] *)
Definition deleteConversation (db : Connection) (id userId : Z) : Connection * bool :=
  match db with
  | None => (None, false)
  | Some t =>
      let messages' :=
        filter (fun m => negb (MessageRow.conversationId m =? id)) (messages t) in
      let hit := fun c => (Conversation.id c =? id) && (Conversation.userId c =? userId) in
      let affectedRows := Z.of_nat (List.length (filter hit (conversations t))) in
      (Some (mkTables (documents t) (documentChunks t)
                      (filter (fun c => negb (hit c)) (conversations t)) messages'
                      (reports t)),
       0 <? affectedRows)
  end.

End Db.

(** ** Retrieval search of [server/agent.ts] *)

Module Citation.
Record t := mk {
  documentId : Z;
  documentName : string;
  pageNumber : option Z;
  section : option string;
  excerpt : string
}.
End Citation.

Module Search.
Import JsString.

(** An element of [chunks] in the result of [searchDocuments] *)
Record Hit := mkHit { content : string; citation : Citation.t }.

(** [documents.filter(d => documentTypes.includes(d.documentType))] when
    [documentTypes] is given and not empty, else [documents] *)
Definition relevantDocs (documents : list Document.t)
    (documentTypes : option (list string)) : list Document.t :=
  match documentTypes with
  | Some (ty :: tys) =>
      filter (fun d => existsb (String.eqb (documentTypeName (Document.documentType d)))
                               (ty :: tys))
             documents
  | _ => documents
  end.

(** [query.toLowerCase().split(/\s+/)] *)
Definition queryTerms (query : string) : list string :=
  splitWhitespace (toLowerCase query).

(** The predicate of [chunks.filter(...)] *)
Definition chunkMatches (relevantDocIds : list Z) (terms : list string)
    (chunk : DocumentChunk.t) : bool :=
  if negb (existsb (Z.eqb (DocumentChunk.documentId chunk)) relevantDocIds) then false
  else
    let content := toLowerCase (DocumentChunk.content chunk) in
    existsb (fun term => includes content term) terms.

(** The citation built for a matching chunk *)
Definition citationOf (documents : list Document.t) (chunk : DocumentChunk.t)
    : Citation.t :=
  let doc := find (fun d => Document.id d =? DocumentChunk.documentId chunk) documents in
  let text := DocumentChunk.content chunk in
  Citation.mk
    (DocumentChunk.documentId chunk)
    (match doc with
     | Some d => if String.eqb (Document.originalName d) "" then "Unknown Document"
                 else Document.originalName d
     | None => "Unknown Document"
     end)
    (DocumentChunk.pageNumber chunk)
    (DocumentChunk.sectionTitle chunk)
    (substring0 text 200 ++ (if 200 <? len text then "..." else "")).

Definition toHit (documents : list Document.t) (chunk : DocumentChunk.t) : Hit :=
  mkHit (DocumentChunk.content chunk) (citationOf documents chunk).

(** The chunks that pass the filter, before [slice(0, 10)] *)
Definition matchingAll (db : Db.Connection) (userId : Z) (query : string)
    (documentTypes : option (list string)) : list DocumentChunk.t :=
  let documents := Db.getDocumentsByUserId db userId in
  let chunks := Db.getChunksByUserDocuments db userId None in
  let relevantDocIds := map Document.id (relevantDocs documents documentTypes) in
  filter (chunkMatches relevantDocIds (queryTerms query)) chunks.

Definition matchingChunks (db : Db.Connection) (userId : Z) (query : string)
    (documentTypes : option (list string)) : list DocumentChunk.t :=
  firstn 10 (matchingAll db userId query documentTypes).

Definition searchDocuments (db : Db.Connection) (userId : Z) (query : string)
    (documentTypes : option (list string)) : list Hit :=
  map (toHit (Db.getDocumentsByUserId db userId))
      (matchingChunks db userId query documentTypes).

End Search.

(** ** JavaScript numbers *)
Module JsNumber.

(** Decimal digits of an integer: [String(n)] for an integer [n]. *)
Definition digits (n : Z) : string := NilZero.string_of_int (Z.to_int n).

Definition zeros (n : Z) : string :=
  string_of_list_ascii (repeat "0"%char (Z.to_nat n)).

(** The truthiness of a number: every number but [0], [-0] and [NaN]. *)
Definition truthy (x : float) : bool :=
  negb (PrimFloat.is_nan x || PrimFloat.is_zero x).

(** [Math.PI] *)
Definition PI : float := 0x1.921fb54442d18p+1%float.

(** [compare (s * 10^p) (m * 2^q)] on exact integers *)
Definition cmpDecBin (s p m q : Z) : comparison :=
  (s * 10 ^ Z.max p 0 * 2 ^ Z.max (- q) 0 ?= m * 2 ^ Z.max q 0 * 10 ^ Z.max (- p) 0).

Section Shortest.
(** A positive finite number [x = m * 2^e], as [Prim2SF] gives it. *)
Variables (m e : Z).

(** The numbers that round to [x] lie between the midpoints to its two
    neighbours, written here on the scale [2^(e-2)]; the lower neighbour
    is half as far when [m] is a power of two. The ends belong to the
    interval when [m] is even. *)
Definition upperMid : Z := 4 * m + 2.
Definition lowerMid : Z :=
  if (m =? 2 ^ 52) && (-1074 <? e) then 4 * m - 1 else 4 * m - 2.

Definition roundsToX (s p : Z) : bool :=
  match cmpDecBin s p lowerMid (e - 2), cmpDecBin s p upperMid (e - 2) with
  | Gt, Lt => true
  | Eq, Lt | Gt, Eq => Z.even m
  | _, _ => false
  end.

(** The least [n], from [n0] upwards, with [x < 10^n] *)
Fixpoint magnitudeFrom (fuel : nat) (n0 : Z) : Z :=
  match fuel with
  | O => n0
  | S f =>
      match cmpDecBin 1 n0 m e with
      | Gt => n0
      | _ => magnitudeFrom f (n0 + 1)
      end
  end.

(** The [n] with [10^(n-1) <= x < 10^n]. The search starts below it:
    [x >= 2^b] for [b = log2 m + e], and [0.30103 * b - 1] lies under
    [log10 (2^b)] for every exponent of a binary64 number. *)
Definition magnitude : Z :=
  magnitudeFrom 16 ((Z.log2 m + e) * 30103 / 100000 - 1).

(** [floor (x / 10^p)] *)
Definition floorScaled (p : Z) : Z :=
  (m * 2 ^ Z.max e 0 * 10 ^ Z.max (- p) 0) / (2 ^ Z.max (- e) 0 * 10 ^ Z.max p 0).

(** With [k] digits: the [k]-digit decimals nearest to [x] from below and
    from above, and the one of them that rounds to [x], the nearer one
    when both do, the even one on a tie. *)
Definition candidate (n k : Z) : option Z :=
  let p := n - k in
  let lo := floorScaled p in
  let hi := lo + 1 in
  match roundsToX lo p, roundsToX hi p with
  | true, true =>
      match cmpDecBin (2 * lo + 1) p (2 * m) e with
      | Gt => Some lo
      | Lt => Some hi
      | Eq => Some (if Z.even lo then lo else hi)
      end
  | true, false => Some lo
  | false, true => Some hi
  | false, false => None
  end.

(** The least number of digits [k], from [k0] upwards, that has a
    candidate; the result is [(n, k, s)] with [10^(k-1) <= s < 10^k]. *)
Fixpoint shortest (fuel : nat) (n k0 : Z) : Z * Z * Z :=
  match fuel with
  | O => (n, k0, floorScaled (n - k0))
  | S f =>
      match candidate n k0 with
      | Some s => if s =? 10 ^ k0 then (n + 1, k0, 10 ^ (k0 - 1)) else (n, k0, s)
      | None => shortest f n (k0 + 1)
      end
  end.

End Shortest.

(** The layout of [Number::toString] for the digits [s] ([k] of them) and
    the decimal exponent [n] *)
Definition layout (n k s : Z) : string :=
  let ds := digits s in
  if (k <=? n) && (n <=? 21) then ds ++ zeros (n - k)
  else if (0 <? n) && (n <=? 21) then
    substring 0 (Z.to_nat n) ds ++ "." ++ substring (Z.to_nat n) (Z.to_nat (k - n)) ds
  else if (-6 <? n) && (n <=? 0) then "0." ++ zeros (- n) ++ ds
  else
    let ex := n - 1 in
    let tail := "e" ++ (if ex <? 0 then "-" else "+") ++ digits (Z.abs ex) in
    if k =? 1 then ds ++ tail
    else substring 0 1 ds ++ "." ++ substring 1 (Z.to_nat (k - 1)) ds ++ tail.

(** [Number::toString(x)], the conversion behind [String(x)] and a
    number in a template literal *)
Definition toString (x : float) : string :=
  match Prim2SF x with
  | S754_nan => "NaN"
  | S754_zero _ => "0"
  | S754_infinity sign => if sign then "-Infinity" else "Infinity"
  | S754_finite sign pm e =>
      let m := Z.pos pm in
      let n := magnitude m e in
      let '(n', k, s) := shortest m e 25 n 1 in
      (if sign then "-" else "") ++ layout n' k s
  end.

(** [x.toFixed(f)] for [0 <= f <= 100] *)
Definition toFixed (x : float) (f : Z) : string :=
  match Prim2SF x with
  | S754_nan => "NaN"
  | S754_infinity sign => if sign then "-Infinity" else "Infinity"
  | S754_zero _ => if f =? 0 then "0" else "0." ++ zeros f
  | S754_finite sign pm e =>
      let m := Z.pos pm in
      let neg := if sign then "-" else "" in
      match cmpDecBin 1 21 m e with
      | Gt =>
          let num := m * 10 ^ f * 2 ^ Z.max e 0 in
          let den := 2 ^ Z.max (- e) 0 in
          let n := (2 * num + den) / (2 * den) in
          let ds := digits n in
          let k := Z.of_nat (String.length ds) in
          if f =? 0 then neg ++ ds
          else
            let padded := if k <=? f then zeros (f + 1 - k) ++ ds else ds in
            let k' := Z.of_nat (String.length padded) in
            neg ++ substring 0 (Z.to_nat (k' - f)) padded ++ "."
                ++ substring (Z.to_nat (k' - f)) (Z.to_nat f) padded
      | _ => toString x
      end
  end.

(** The rational number a finite binary64 number stands for *)
Definition exact (x : float) : option Q :=
  match Prim2SF x with
  | S754_zero _ => Some 0%Q
  | S754_finite sign m e =>
      Some ((if sign then -1 else 1) * inject_Z (Z.pos m) * Qpower 2 e)%Q
  | _ => None
  end.

End JsNumber.

(** ** Values, exceptions and calls out of the program *)
Module Js.

(** The completion of an expression: a value, or a thrown exception. *)
Inductive Exc (A : Type) : Type :=
| Normal (a : A)
| Thrown (error : string).
Arguments Normal {A} a.
Arguments Thrown {A} error.

(** A value of unknown type, as dynamic evaluation returns it. A value
    of another kind (an object, a symbol, a BigInt) carries the
    completion of its conversion to a string and the completion of
    [JSON.stringify] on an object that holds it: a symbol has no
    conversion to a string, and a BigInt or a cyclic object has no JSON
    text. *)
Inductive JsVal :=
| VUndefined
| VNull
| VBool (b : bool)
| VNum (x : float)
| VStr (s : string)
| VOther (asString : Exc string) (asJson : Exc unit).

(** A computation that calls out of the program: to the regular
    expression engine ([subject.replace(new RegExp(pattern, 'g'),
    replacement)]), to dynamic evaluation ([Function(source)()]) and to
    the owner notification service. Each call hands its completion to the
    continuation. *)
Inductive Prog (A : Type) : Type :=
| Ret (a : A)
| RegExpReplaceAll (subject pattern replacement : string) (k : Exc string -> Prog A)
| CallFunction (source : string) (k : Exc JsVal -> Prog A)
| NotifyOwner (title content : string) (k : Exc bool -> Prog A).
Arguments Ret {A} a.
Arguments RegExpReplaceAll {A} subject pattern replacement k.
Arguments CallFunction {A} source k.
Arguments NotifyOwner {A} title content k.

Fixpoint bind {A B} (p : Prog A) (f : A -> Prog B) : Prog B :=
  match p with
  | Ret a => f a
  | RegExpReplaceAll s pat rep k => RegExpReplaceAll s pat rep (fun r => bind (k r) f)
  | CallFunction src k => CallFunction src (fun r => bind (k r) f)
  | NotifyOwner t c k => NotifyOwner t c (fun r => bind (k r) f)
  end.

(** The surroundings that answer the calls. *)
Record World := mkWorld {
  regExpReplaceAll : string -> string -> string -> Exc string;
  callFunction : string -> Exc JsVal;
  notifyOwner : string -> string -> Exc bool
}.

Fixpoint run {A} (w : World) (p : Prog A) : A :=
  match p with
  | Ret a => a
  | RegExpReplaceAll s pat rep k => run w (k (regExpReplaceAll w s pat rep))
  | CallFunction src k => run w (k (callFunction w src))
  | NotifyOwner t c k => run w (k (notifyOwner w t c))
  end.

(** Code that may throw. *)
Definition M (A : Type) : Type := Prog (Exc A).

Definition ret {A} (a : A) : M A := Ret (Normal a).

Definition bindM {A B} (m : M A) (f : A -> M B) : M B :=
  bind m (fun r => match r with
                   | Normal a => f a
                   | Thrown e => Ret (Thrown e)
                   end).

(** [try { body; rest } catch { handler }] *)
Definition tryCatch {A B} (body : M A) (rest : A -> M B) (handler : string -> M B)
    : M B :=
  bind body (fun r => match r with
                      | Normal a => rest a
                      | Thrown e => handler e
                      end).

(** A value in a template literal *)
Definition toStringM (v : JsVal) : M string :=
  match v with
  | VUndefined => ret "undefined"
  | VNull => ret "null"
  | VBool b => ret (if b then "true" else "false")
  | VNum x => ret (JsNumber.toString x)
  | VStr s => ret s
  | VOther r _ => Ret r
  end.

End Js.

Declare Scope prog_scope.
Delimit Scope prog_scope with prog.
Notation "x <- m ;; k" := (Js.bindM m (fun x => k))
  (at level 61, m at next level, right associativity) : prog_scope.
Notation "' p <- m ;; k" := (Js.bindM m (fun x => let 'p := x in k))
  (at level 61, p pattern, m at next level, right associativity) : prog_scope.

(** ** The calculation engine of [server/agent.ts] *)
Module Calc.
Import Js.
Open Scope prog_scope.

(** [Record<string, number>]: the entries in the order [Object.entries]
    lists them; a property is read from its first entry. *)
Definition Values := list (string * float).

Definition get (key : string) (o : Values) : option float :=
  option_map snd (find (fun kv => String.eqb (fst kv) key) o).

(** The truthiness of a number that may be [undefined]: it is there, and
    it is neither [0] nor [NaN]. *)
Definition truthyNum (x : option float) : bool :=
  match x with
  | Some y => JsNumber.truthy y
  | None => false
  end.

(** A number that may be [undefined], as an operand of [*] *)
Definition toNumber (x : option float) : float :=
  match x with
  | Some y => y
  | None => PrimFloat.nan
  end.

(** The truthiness of [values.key] *)
Definition truthyAt (key : string) (o : Values) : bool := truthyNum (get key o).

(** [values.key !== undefined] *)
Definition defined (key : string) (o : Values) : bool :=
  match get key o with
  | Some _ => true
  | None => false
  end.

(** [values.key] as an operand of [*] *)
Definition num (key : string) (o : Values) : float := toNumber (get key o).

(** [values.key] in a template literal *)
Definition str (key : string) (o : Values) : string :=
  match get key o with
  | Some x => JsNumber.toString x
  | None => "undefined"
  end.

(** The input of [executeCalculation] after the cast of its first line *)
Record Input := mkInput {
  calculation_type : string;
  values : Values;
  formula : option string;
  unit_from : option string;
  unit_to : option string
}.

(** The two shapes of the object [executeCalculation] returns *)
Inductive Output :=
| Failure (error : string)
| Success (result : JsVal) (explanation : string) (calculation_type : string)
          (input_values : Values).

#[local] Set Warnings "-inexact-float".
Definition UNIT_CONVERSIONS : list (string * Values) :=
  [ ("length",
     [ ("ft_to_m", 0.3048); ("m_to_ft", 3.28084); ("in_to_cm", 2.54);
       ("cm_to_in", 0.393701); ("yd_to_m", 0.9144); ("m_to_yd", 1.09361) ]%float);
    ("area",
     [ ("sqft_to_sqm", 0.092903); ("sqm_to_sqft", 10.7639);
       ("sqyd_to_sqm", 0.836127); ("sqm_to_sqyd", 1.19599);
       ("acre_to_sqm", 4046.86); ("sqm_to_acre", 0.000247105) ]%float);
    ("volume",
     [ ("cuft_to_cum", 0.0283168); ("cum_to_cuft", 35.3147);
       ("cuyd_to_cum", 0.764555); ("cum_to_cuyd", 1.30795);
       ("gal_to_l", 3.78541); ("l_to_gal", 0.264172) ]%float);
    ("weight",
     [ ("lb_to_kg", 0.453592); ("kg_to_lb", 2.20462); ("ton_to_kg", 907.185);
       ("kg_to_ton", 0.00110231); ("tonne_to_kg", 1000); ("kg_to_tonne", 0.001) ]%float) ].
#[local] Set Warnings "+inexact-float".

(** The loop over [Object.values(UNIT_CONVERSIONS)]: [factor] is taken
    from the first category in which [category[conversionKey]] is truthy,
    and stays [undefined] when there is none. *)
Fixpoint findFactor (conversionKey : string) (categories : list Values) : option float :=
  match categories with
  | [] => None
  | category :: rest =>
      if truthyAt conversionKey category then get conversionKey category
      else findFactor conversionKey rest
  end.

(** The truthiness of an optional string: it is there and not empty. *)
Definition truthyStr (s : option string) : bool :=
  match s with
  | Some (String _ _) => true
  | _ => false
  end.

Definition strOpt (s : option string) : string :=
  match s with
  | Some t => t
  | None => "undefined"
  end.

Definition QUOTE : string := String (ascii_of_nat 34) EmptyString.

(** The loop over [Object.entries(values)] of the custom branch *)
Fixpoint substitute (evalFormula : string) (entries : Values) : M string :=
  match entries with
  | [] => ret evalFormula
  | (key, val) :: rest =>
      replaced <- RegExpReplaceAll evalFormula key (JsNumber.toString val) Ret ;;
      substitute replaced rest
  end.

(** The body of the [try] block of the custom branch: the result and
    the explanation it assigns. *)
Definition customBody (formula : string) (vals : Values) : M (JsVal * string) :=
  evalFormula <- substitute formula vals ;;
  result <- CallFunction (QUOTE ++ "use strict" ++ QUOTE ++ "; return ("
                          ++ evalFormula ++ ")") Ret ;;
  shown <- toStringM result ;;
  ret (result, "Custom calculation: " ++ formula ++ " = " ++ shown).

(** The text of the explanations holds three characters beyond ASCII (the
    multiplication sign, the Greek letter pi and the superscript two);
    they stand here in the encoding of this file. *)
Definition executeCalculation (input : Input) : M Output :=
  let ty := calculation_type input in
  let v := values input in
  let done (result : float) (explanation : string) : M Output :=
    ret (Success (VNum result) explanation ty v) in
  if String.eqb ty "area" then
    if truthyAt "length" v && truthyAt "width" v then
      let result := (num "length" v * num "width" v)%float in
      done result ("Area = " ++ str "length" v ++ " × " ++ str "width" v ++ " = "
                   ++ JsNumber.toString result ++ " square units")
    else if truthyAt "radius" v then
      let result := (JsNumber.PI * num "radius" v * num "radius" v)%float in
      done result ("Area = π × " ++ str "radius" v ++ "² = "
                   ++ JsNumber.toFixed result 4 ++ " square units")
    else ret (Failure "Missing required values for area calculation (length/width or radius)")
  else if String.eqb ty "volume" then
    if truthyAt "length" v && truthyAt "width" v && truthyAt "height" v then
      let result := (num "length" v * num "width" v * num "height" v)%float in
      done result ("Volume = " ++ str "length" v ++ " × " ++ str "width" v ++ " × "
                   ++ str "height" v ++ " = " ++ JsNumber.toString result
                   ++ " cubic units")
    else if truthyAt "area" v && truthyAt "depth" v then
      let result := (num "area" v * num "depth" v)%float in
      done result ("Volume = " ++ str "area" v ++ " × " ++ str "depth" v ++ " = "
                   ++ JsNumber.toString result ++ " cubic units")
    else ret (Failure "Missing required values for volume calculation")
  else if String.eqb ty "linear" then
    if truthyAt "quantity" v && truthyAt "unit_length" v then
      let result := (num "quantity" v * num "unit_length" v)%float in
      done result ("Total length = " ++ str "quantity" v ++ " × " ++ str "unit_length" v
                   ++ " = " ++ JsNumber.toString result ++ " linear units")
    else ret (Failure "Missing required values for linear calculation")
  else if String.eqb ty "weight" then
    if truthyAt "volume" v && truthyAt "density" v then
      let result := (num "volume" v * num "density" v)%float in
      done result ("Weight = " ++ str "volume" v ++ " × " ++ str "density" v ++ " = "
                   ++ JsNumber.toString result ++ " weight units")
    else if truthyAt "quantity" v && truthyAt "unit_weight" v then
      let result := (num "quantity" v * num "unit_weight" v)%float in
      done result ("Total weight = " ++ str "quantity" v ++ " × " ++ str "unit_weight" v
                   ++ " = " ++ JsNumber.toString result ++ " weight units")
    else ret (Failure "Missing required values for weight calculation")
  else if String.eqb ty "conversion" then
    if truthyStr (unit_from input) && truthyStr (unit_to input) && defined "value" v then
      let conversionKey := strOpt (unit_from input) ++ "_to_" ++ strOpt (unit_to input) in
      let factor := findFactor conversionKey (map snd UNIT_CONVERSIONS) in
      if truthyNum factor then
        let result := (num "value" v * toNumber factor)%float in
        done result (str "value" v ++ " " ++ strOpt (unit_from input) ++ " = "
                     ++ JsNumber.toFixed result 4 ++ " " ++ strOpt (unit_to input))
      else ret (Failure ("Conversion from " ++ strOpt (unit_from input) ++ " to "
                         ++ strOpt (unit_to input) ++ " not supported"))
    else ret (Failure "Missing required values for conversion (value, unit_from, unit_to)")
  else if String.eqb ty "custom" then
    if truthyStr (formula input) then
      tryCatch (customBody (strOpt (formula input)) v)
        (fun '(result, explanation) => ret (Success result explanation ty v))
        (fun _ => ret (Failure "Invalid formula or values"))
    else ret (Failure "Custom calculation requires a formula")
  else ret (Failure ("Unknown calculation type: " ++ ty)).

End Calc.

(** ** The agent loop of [server/agent.ts] *)

(** A tool call of the assistant: [toolCall.function.name] together with
    [JSON.parse(toolCall.function.arguments)], for arguments that parse
    and have the types the tool's schema in [AGENT_TOOLS] declares. Only
    the properties the dispatch reads are kept. *)
Inductive ToolRequest :=
| search_documents (query : string) (document_types : option (list string))
| calculate_quantity (input : Calc.Input)
| analyze_schedule (analysis_type : string)
| generate_report (report_type : string)
| detect_conflicts (topics : list string)
| extract_specifications (spec_type : string) (attributes : option (list string))
| unknown_tool (name : string).

Definition toolName (r : ToolRequest) : string :=
  match r with
  | search_documents _ _ => "search_documents"
  | calculate_quantity _ => "calculate_quantity"
  | analyze_schedule _ => "analyze_schedule"
  | generate_report _ => "generate_report"
  | detect_conflicts _ => "detect_conflicts"
  | extract_specifications _ _ => "extract_specifications"
  | unknown_tool name => name
  end.

(** [toolOutput], one shape per tool. A list of hits stands for the
    mapped list of [{content, source}] objects. *)
Inductive ToolOutput :=
| SearchOutput (found : Z) (results : list Search.Hit)
| CalculationOutput (output : Calc.Output)
| ScheduleOutput (analysis_type : string) (found_items : Z)
                 (schedule_data : list Search.Hit)
| ReportOutput (report_type : string) (sections_found : Z)
               (content_sources : list Search.Hit)
| ConflictOutput (topics_analyzed : list string)
                 (potential_conflicts : list (string * list Search.Hit))
| SpecificationOutput (spec_type : string) (specifications_found : Z)
                      (data : list Search.Hit)
| UnknownToolOutput (error : string).

Module ToolCallResult.
Record t := mk { tool : string; input : ToolRequest; output : ToolOutput }.
End ToolCallResult.

Module AgentResponse.
(** [content] is [None] when the property holds [undefined]. *)
Record t := mk {
  content : option string;
  citations : list Citation.t;
  toolCalls : list ToolCallResult.t
}.
End AgentResponse.

(** The messages exchanged with the language model *)
Module Llm.

Inductive Role := system | user | assistant | tool.

(** The content of a message sent: a text, or the JSON serialization of
    a tool output, kept as the value serialized. *)
Inductive Body :=
| Text (s : string)
| Json (value : ToolOutput).

Record Message := mkMessage {
  role : Role;
  content : Body;
  tool_call_id : option string
}.

Record ToolCall := mkToolCall { id : string; function : ToolRequest }.

(** The content of a message received: a string, or a structure that
    [JSON.stringify] turns into the given text. *)
Inductive Content :=
| Plain (s : string)
| Structured (json : string).

Record AssistantMessage := mkAssistant {
  answer : Content;
  tool_calls : option (list ToolCall)
}.

Record Choice := mkChoice { message : option AssistantMessage }.

Record InvokeResult := mkResult { choices : list Choice }.

(** [tools] tells whether [AGENT_TOOLS] is offered, with
    [toolChoice: "auto"]. *)
Record InvokeParams := mkParams { messages : list Message; tools : bool }.

End Llm.

Module Agent.
Import Js JsString.
Open Scope prog_scope.

(** [typeof content === 'string' ? content : JSON.stringify(content)] *)
Definition contentText (c : Llm.Content) : string :=
  match c with
  | Llm.Plain s => s
  | Llm.Structured json => json
  end.

Definition documentLine (d : Document.t) : string :=
  "- " ++ Document.originalName d ++ " ("
  ++ documentTypeName (Document.documentType d) ++ ", "
  ++ match Document.pageCount d with
     | Some n => if n =? 0 then "unknown" else JsNumber.digits n
     | None => "unknown"
     end
  ++ " pages)".

Definition documentContext (userDocuments : list Document.t) : string :=
  match userDocuments with
  | [] => LF ++ LF ++ "No documents have been uploaded yet."
  | _ => LF ++ LF ++ "Available documents:" ++ LF
         ++ join LF (map documentLine userDocuments)
  end.

Definition systemPrompt (userDocuments : list Document.t) : string :=
  "You are an expert construction document AI assistant. You help construction professionals analyze project documents, perform calculations, generate reports, and identify specification conflicts.

Your capabilities include:
1. **Document Search**: Search through uploaded construction documents (project plans, specifications, standard plans, special provisions, CPM schedules)
2. **Calculations**: Perform quantity calculations (area, volume, linear measurements, weight, unit conversions)
3. **Schedule Analysis**: Analyze CPM schedules for critical path, milestones, dependencies, and timelines
4. **Report Generation**: Create comprehensive reports summarizing requirements, specifications, and conflicts
5. **Conflict Detection**: Identify conflicting specifications across different document types
6. **Specification Extraction**: Extract specific technical specifications and standards

IMPORTANT GUIDELINES:
- Always cite your sources with document name, page number, and section when referencing document content
- When performing calculations, show your work and explain the formula used
- When detecting conflicts, clearly identify which documents contain conflicting information
- Use construction industry terminology appropriately
- If information is not found in the documents, clearly state that
- For scheduling questions, reference specific activities, dates, and dependencies
" ++ documentContext userDocuments.

(** What one tool call adds: its output and the citations it pushes. *)
Definition searchTool (db : Db.Connection) (userId : Z) (query : string)
    (documentTypes : option (list string)) : list Search.Hit :=
  Search.searchDocuments db userId query documentTypes.

Definition count {A} (l : list A) : Z := Z.of_nat (List.length l).

(** The loop over [topics] of [detect_conflicts] *)
Fixpoint conflictSearch (db : Db.Connection) (userId : Z) (topics : list string)
    : list (string * list Search.Hit) :=
  match topics with
  | [] => []
  | topic :: rest =>
      (topic, searchTool db userId topic None) :: conflictSearch db userId rest
  end.

(** One case of the [switch (toolName)] *)
Definition dispatch (db : Db.Connection) (userId : Z) (request : ToolRequest)
    : M (ToolOutput * list Citation.t) :=
  match request with
  | search_documents query document_types =>
      let searchResult := searchTool db userId query document_types in
      ret (SearchOutput (count searchResult) searchResult,
           map Search.citation searchResult)
  | calculate_quantity input =>
      output <- Calc.executeCalculation input ;;
      ret (CalculationOutput output, [])
  | analyze_schedule analysis_type =>
      let scheduleSearch :=
        searchTool db userId ("schedule " ++ analysis_type ++ " timeline milestone")
                   (Some ["cpm_schedule"]) in
      ret (ScheduleOutput analysis_type (count scheduleSearch) scheduleSearch,
           map Search.citation scheduleSearch)
  | generate_report report_type =>
      let reportSearch := searchTool db userId (underscoresToSpaces report_type) None in
      ret (ReportOutput report_type (count reportSearch) reportSearch,
           map Search.citation reportSearch)
  | detect_conflicts topics =>
      let conflictResults := conflictSearch db userId topics in
      let found := flat_map (fun r => map Search.citation (snd r)) conflictResults in
      let output := ConflictOutput topics conflictResults in
      if existsb (fun r => 1 <? count (snd r)) conflictResults then
        NotifyOwner "Specification Conflict Detected"
          ("A user has identified potential specification conflicts in topics: "
           ++ join ", " topics)
          (fun r => match r with
                    | Normal _ => ret (output, found)
                    | Thrown e => Ret (Thrown e)
                    end)
      else ret (output, found)
  | extract_specifications spec_type attributes =>
      let specSearch :=
        searchTool db userId
          (spec_type ++ " specification "
           ++ join " " (match attributes with Some a => a | None => [] end)) None in
      ret (SpecificationOutput spec_type (count specSearch) specSearch,
           map Search.citation specSearch)
  | unknown_tool name => ret (UnknownToolOutput ("Unknown tool: " ++ name), [])
  end.

(** [JSON.stringify(toolOutput)]. The outputs of the searches and the
    errors hold strings, numbers and missing properties only; the one
    value of unknown kind is the result of a custom calculation, and the
    call throws when that value has no JSON text. *)
Definition stringify (toolOutput : ToolOutput) : M Llm.Body :=
  match toolOutput with
  | CalculationOutput (Calc.Success (VOther _ (Thrown e)) _ _ _) => Ret (Thrown e)
  | _ => ret (Llm.Json toolOutput)
  end.

(** The state the loop over [tool_calls] builds up *)
Record Round := mkRound {
  citations : list Citation.t;
  toolCalls : list ToolCallResult.t;
  toolResults : list Llm.Message
}.

Fixpoint toolRound (db : Db.Connection) (userId : Z) (calls : list Llm.ToolCall)
    (st : Round) : M Round :=
  match calls with
  | [] => ret st
  | toolCall :: rest =>
      let request := Llm.function toolCall in
      '(toolOutput, cited) <- dispatch db userId request ;;
      serialized <- stringify toolOutput ;;
      toolRound db userId rest
        (mkRound (citations st ++ cited)%list
                 (toolCalls st ++ [ToolCallResult.mk (toolName request) request toolOutput])%list
                 (toolResults st
                  ++ [Llm.mkMessage Llm.tool serialized (Some (Llm.id toolCall))])%list)
  end.

(** [citationMap.set(key, c)] on a [Map] kept as the list of its entries
    in insertion order: a key already there keeps its place and takes
    the new value. *)
Fixpoint mapSet (key : string) (c : Citation.t) (m : list (string * Citation.t))
    : list (string * Citation.t) :=
  match m with
  | [] => [(key, c)]
  | (k, old) :: rest =>
      if String.eqb k key then (k, c) :: rest else (k, old) :: mapSet key c rest
  end.

(** [c.documentId + c.excerpt] *)
Definition citationKey (c : Citation.t) : string :=
  JsNumber.digits (Citation.documentId c) ++ Citation.excerpt c.

(** [citations.forEach(c => citationMap.set(c.documentId + c.excerpt, c))]
    followed by [Array.from(citationMap.values())] *)
Definition dedupe (cs : list Citation.t) : list Citation.t :=
  map snd (fold_left (fun m c => mapSet (citationKey c) c m) cs []).

(** The invariant of [citationMap]: each entry stands under the key of
    its citation, and no key stands twice. *)
Definition keyed (m : list (string * Citation.t)) : Prop :=
  (forall k c, In (k, c) m -> k = citationKey c) /\ NoDup (map fst m).

Definition FALLBACK : string :=
  "I apologize, but I encountered an error processing your request. Please try again.".

(** [choices[0]?.message] *)
Definition firstMessage (r : Llm.InvokeResult) : option Llm.AssistantMessage :=
  match Llm.choices r with
  | [] => None
  | c :: _ => Llm.message c
  end.

(** [runAgent]. The language model is the function [invokeLLM] from the
    parameters of a call to what the call resolves to. *)
Definition runAgent (db : Db.Connection) (invokeLLM : Llm.InvokeParams -> Llm.InvokeResult)
    (userId : Z) (userMessage : string) (conversationHistory : list Llm.Message)
    : M AgentResponse.t :=
  let userDocuments := Db.getDocumentsByUserId db userId in
  let messages :=
    ([Llm.mkMessage Llm.system (Llm.Text (systemPrompt userDocuments)) None]
     ++ conversationHistory
     ++ [Llm.mkMessage Llm.user (Llm.Text userMessage) None])%list in
  let initialResponse := invokeLLM (Llm.mkParams messages true) in
  match firstMessage initialResponse with
  | None => ret (AgentResponse.mk (Some FALLBACK) [] [])
  | Some assistantMessage =>
      match Llm.tool_calls assistantMessage with
      | Some (call :: calls) =>
          st <- toolRound db userId (call :: calls) (mkRound [] [] []) ;;
          let assistantToolMessage :=
            Llm.mkMessage Llm.assistant
              (Llm.Text (contentText (Llm.answer assistantMessage))) None in
          let finalResponse :=
            invokeLLM (Llm.mkParams (messages ++ [assistantToolMessage]
                                     ++ toolResults st)%list false) in
          let finalContent := option_map Llm.answer (firstMessage finalResponse) in
          ret (AgentResponse.mk (option_map contentText finalContent)
                                (dedupe (citations st))
                                (toolCalls st))
      | _ => ret (AgentResponse.mk (Some (contentText (Llm.answer assistantMessage))) [] [])
      end
  end.

End Agent.

(** ** The search contract in the words of the specification *)
Module SearchSpec.
Import JsString.

(** [t] is a substring of [s]. *)
Definition isSubstringOf (t s : string) : Prop :=
  exists before after, s = before ++ t ++ after.










(** The document passes the optional filter on document types. *)
Definition passesTypeFilter (documentTypes : option (list string)) (d : Document.t)
    : Prop :=
  match documentTypes with
  | Some (ty :: tys) => In (documentTypeName (Document.documentType d)) (ty :: tys)
  | _ => True
  end.





End SearchSpec.

(** ** The calculation contract in the words of the specification *)
Module CalcSpec.

(** The output is a structured error, or a structured success that
    carries a result, an explanation, the calculation type of the input
    and the values of the input. *)
Definition structured (input : Calc.Input) (output : Calc.Output) : Prop :=
  match output with
  | Calc.Failure _ => True
  | Calc.Success _ _ ty vals =>
      ty = Calc.calculation_type input /\ vals = Calc.values input
  end.

(** The factor of the first category, in the order of the table, that
    contains the key *)
Definition firstCategoryFactor (key : string) : option float :=
  match find (fun category => Calc.defined key (snd category)) Calc.UNIT_CONVERSIONS with
  | Some category => Calc.get key (snd category)
  | None => None
  end.

(** [x] is a finite number within [tolerance] of [target]. *)
Definition within (tolerance target : Q) (x : float) : Prop :=
  exists q, JsNumber.exact x = Some q /\ (Qabs (q - target) < tolerance)%Q.

End CalcSpec.

(** ** Concrete texts, stores and model answers used in the examples *)
Module Scenario.
Import JsString.

(** Fifty characters without white space *)
Definition fiftyChars : string := string_of_list_ascii (repeat "a"%char 50).

(** A text of 120 characters without white space *)
Definition twoSlices : string := string_of_list_ascii (repeat "a"%char 120).

(** A sentence of 61 characters *)
Definition sentence : string :=
  "Concrete shall have minimum compressive strength of 4000 psi.".

(** A line break after three characters, in a text of ten *)
Definition brokenLine : string := "abc" ++ LF ++ "efghij".

(** Two users. User 1 owns document 7, a specification in two chunks,
    and document 12, a plan in one chunk; user 2 owns document 8. *)
Definition doc7 : Document.t :=
  Document.mk 7 1 "spec.txt" specifications (Some 1) None completed 100.
Definition doc12 : Document.t :=
  Document.mk 12 1 "plan.txt" project_plans None None completed 200.
Definition doc8 : Document.t :=
  Document.mk 8 2 "schedule.txt" cpm_schedule (Some 3) None completed 150.

Definition chunk7a : DocumentChunk.t :=
  DocumentChunk.mk 1 7 1 0 sentence (Some 1) None.
Definition chunk7b : DocumentChunk.t :=
  DocumentChunk.mk 2 7 1 1 "Rebar spacing shall not exceed 12 inches." (Some 1) None.
Definition chunk12 : DocumentChunk.t :=
  DocumentChunk.mk 3 12 1 0 "Slab on grade, see detail 4." None (Some "A-101").
Definition chunk8 : DocumentChunk.t :=
  DocumentChunk.mk 4 8 2 0 "Milestone: foundation complete." (Some 2) None.

Definition store : Db.Tables :=
  Db.mkTables [doc7; doc12; doc8] [chunk7a; chunk7b; chunk12; chunk8] [] [] [].

(** [calculate("area", {length: 4, width: 5})] *)
Definition area4by5 : Calc.Input :=
  Calc.mkInput "area" [("length", 4%float); ("width", 5%float)] None None None.

(** [calculate("area", {length: 0, width: 5})] *)
Definition area0by5 : Calc.Input :=
  Calc.mkInput "area" [("length", 0%float); ("width", 5%float)] None None None.

(** [calculate("conversion", {value: 10}, unitFrom: "ft", unitTo: "m")] *)
Definition tenFeet : Calc.Input :=
  Calc.mkInput "conversion" [("value", 10%float)] None (Some "ft") (Some "m").

(** The same request with an empty source unit *)
Definition tenOfNothing : Calc.Input :=
  Calc.mkInput "conversion" [("value", 10%float)] None (Some "") (Some "m").

(** A language model that answers [first] when it is offered the tools
    and [second] when it is not *)
Definition scripted (first second : Llm.InvokeResult) (p : Llm.InvokeParams)
    : Llm.InvokeResult :=
  if Llm.tools p then first else second.

(** The assistant asks for one tool call. *)
Definition asksFor (request : ToolRequest) : Llm.InvokeResult :=
  Llm.mkResult
    [Llm.mkChoice
       (Some (Llm.mkAssistant (Llm.Plain "") (Some [Llm.mkToolCall "call_1" request])))].

(** The assistant answers with a text. *)
Definition says (text : string) : Llm.InvokeResult :=
  Llm.mkResult [Llm.mkChoice (Some (Llm.mkAssistant (Llm.Plain text) None))].

(** A response without choices, so without an assistant message *)
Definition noMessage : Llm.InvokeResult := Llm.mkResult [].

(** User 1 owns documents 1 and 12. The chunk of document 1 begins with
    the digits 23, the chunk of document 12 with the digit 3, and they
    continue alike. *)
Definition doc1 : Document.t :=
  Document.mk 1 1 "mix.txt" specifications (Some 1) None completed 100.
Definition chunk1 : DocumentChunk.t :=
  DocumentChunk.mk 1 1 1 0 "23 MPa concrete" None None.
Definition chunk12' : DocumentChunk.t :=
  DocumentChunk.mk 2 12 1 0 "3 MPa concrete" None None.
Definition mixStore : Db.Tables :=
  Db.mkTables [doc1; doc12] [chunk1; chunk12'] [] [] [].

Definition cite1 : Citation.t := Citation.mk 1 "mix.txt" None None "23 MPa concrete".
Definition cite12 : Citation.t := Citation.mk 12 "plan.txt" None None "3 MPa concrete".

End Scenario.

(** ** The rest of [server/documentProcessor.ts] *)

(** [Math.ceil] and the conversion of an integer to a number *)
Module JsMath.

(** The number that stands for an integer below [2^53] in absolute value *)
Definition ofZ (n : Z) : float :=
  if n <? 0 then (- PrimFloat.of_uint63 (Uint63.of_Z (- n)))%float
  else PrimFloat.of_uint63 (Uint63.of_Z n).

(** [Math.ceil(x)]: a number without fraction bits is its own ceiling;
    otherwise, for [x = v / 2^k], the ceiling is [- floor (- v / 2^k)],
    and it is [-0] for [x] between [-1] and [0]. *)
Definition ceil (x : float) : float :=
  match Prim2SF x with
  | S754_finite sign m e =>
      if 0 <=? e then x
      else
        let n := - ((if sign then Z.pos m else - Z.pos m) / 2 ^ (- e)) in
        if n =? 0 then (if sign then (- 0)%float else 0%float) else ofZ n
  | _ => x
  end.

End JsMath.

Module Processor.
Import JsString.

(** [estimatePageNumber] *)
Definition estimatePageNumber (charPosition totalChars totalPages : float) : float :=
  if negb (JsNumber.truthy totalPages) then 1%float
  else
    let charsPerPage := (totalChars / totalPages)%float in
    JsMath.ceil (charPosition / charsPerPage)%float.

Definition constructionTerms : list string :=
  [ "concrete"; "steel"; "rebar"; "reinforcement"; "aggregate"; "cement";
    "foundation"; "footing"; "slab"; "beam"; "column"; "wall";
    "specification"; "requirement"; "standard"; "code"; "regulation";
    "schedule"; "milestone"; "deadline"; "duration"; "critical path";
    "material"; "equipment"; "labor"; "cost"; "quantity";
    "inspection"; "testing"; "quality"; "safety"; "compliance";
    "drainage"; "grading"; "excavation"; "backfill"; "compaction";
    "asphalt"; "pavement"; "curb"; "gutter"; "sidewalk";
    "electrical"; "plumbing"; "mechanical"; "HVAC"; "fire protection";
    "psi"; "ksi"; "mpa"; "strength"; "load"; "capacity" ].

(** [extractKeywords] *)
Definition extractKeywords (text : string) : list string :=
  let lowerText := toLowerCase text in
  filter (fun term => includes lowerText term) constructionTerms.

(** [/w1|w2|.../i.test(text)] for alternatives made of lower-case ASCII
    letters and spaces: a character of the text matches a letter of the
    pattern when its lower-casing is that letter. *)
Definition testWords (words : list string) (text : string) : bool :=
  existsb (fun w => includes (toLowerCase text) w) words.

(** [\d] *)
Definition isDigit (c : ascii) : bool :=
  let n := nat_of_ascii c in Nat.leb 48 n && Nat.leb n 57.

(** The text continues with one of [words], whatever the case. *)
Definition wordAhead (words : list string) (s : string) : bool :=
  existsb (fun w => prefix w (toLowerCase s)) words.

(** [/\d+\s*(psi|ksi|mpa|lbs?|kg|tons?|cf|cy|sf|sy|lf)/i.test(text)]:
    some digit is followed, after any white space, by one of the units;
    the optional [s] of [lbs?] and [tons?] does not matter for the test. *)
Fixpoint testMeasurement (text : string) : bool :=
  match text with
  | EmptyString => false
  | String c r =>
      (isDigit c
       && wordAhead ["psi"; "ksi"; "mpa"; "lb"; "kg"; "ton"; "cf"; "cy"; "sf"; "sy"; "lf"]
                    (trimStart r))
      || testMeasurement r
  end.

(** The text continues with white space and then, after all of it, a
    digit: [\s+\d]. *)
Definition spaceThenDigit (s : string) : bool :=
  match s with
  | String c _ =>
      isWhiteSpace c
      && match trimStart s with
         | String d _ => isDigit d
         | EmptyString => false
         end
  | EmptyString => false
  end.

(** One of the three words stands at the head of [s], whatever the case,
    and [\s+\d] follows it. *)
Definition headerAhead (s : string) : bool :=
  existsb (fun w => prefix w (toLowerCase s)
                    && spaceThenDigit (substring (String.length w)
                                         (String.length s - String.length w) s))
          ["section"; "article"; "part"].

(** [/section\s+\d|article\s+\d|part\s+\d/i.test(text)] *)
Fixpoint testSectionHeader (text : string) : bool :=
  headerAhead text
  || match text with
     | EmptyString => false
     | String _ r => testSectionHeader r
     end.

(** [detectChunkType] *)
Definition detectChunkType (text : string) : string :=
  if testWords ["schedule"; "milestone"; "duration"; "start date"; "end date";
                "critical path"] text
  then "schedule"
  else if testWords ["specification"; "requirement"; "shall"; "must"; "minimum";
                     "maximum"] text
  then "specification"
  else if testMeasurement text then "measurement"
  else if testSectionHeader text then "section_header"
  else if testWords ["table"; "figure"; "drawing"; "plan"; "detail"] text
  then "reference"
  else "general".

Fixpoint indexOfAt (pat s : string) (i : nat) : Z :=
  if prefix pat s then Z.of_nat i
  else match s with
       | EmptyString => -1
       | String _ r => indexOfAt pat r (S i)
       end.

(** [s.indexOf(pat)]: the first index at which [pat] occurs, or [-1] *)
Definition indexOf (s pat : string) : Z := indexOfAt pat s 0.

(** An element of the result of [extractSections] *)
Record Section := mkSection { title : string; content : string; startIndex : Z }.

(** [InsertDocumentChunk], with the two properties of [metadata] as
    fields *)
Record ChunkRecord := mkChunkRecord {
  documentId : Z;
  userId : Z;
  chunkIndex : Z;
  chunkContent : string;
  pageNumber : option float;
  sectionTitle : option string;
  startOffset : Z;
  endOffset : Z;
  keywords : list string;
  type : string
}.

(** The callback of [textChunks.map((content, index) => ...)] in
    [processDocumentWithLLM]; [sections] is the result of
    [extractSections]. *)
Definition toChunkRecord (documentId userId : Z) (extractedText : string)
    (pageCount : option float) (sections : list Section)
    (content : string) (index : Z) : ChunkRecord :=
  let chunkStart := indexOf extractedText content in
  let section :=
    find (fun s => (startIndex s <=? chunkStart)
                   && (chunkStart <? startIndex s + len (Processor.content s)))
         sections in
  mkChunkRecord documentId userId index content
    (match pageCount with
     | Some n =>
         if JsNumber.truthy n
         then Some (estimatePageNumber (JsMath.ofZ chunkStart)
                      (JsMath.ofZ (len extractedText)) n)
         else None
     | None => None
     end)
    (match section with
     | Some s => if String.eqb (title s) "" then None else Some (title s)
     | None => None
     end)
    chunkStart (chunkStart + len content)
    (extractKeywords content) (detectChunkType content).

Fixpoint mapWithIndex {A B} (f : A -> Z -> B) (l : list A) (index : Z) : list B :=
  match l with
  | [] => []
  | x :: r => f x index :: mapWithIndex f r (index + 1)
  end.

(** [chunkRecords] of [processDocumentWithLLM] *)
Definition chunkRecords (documentId userId : Z) (extractedText : string)
    (pageCount : option float) (sections : list Section) (textChunks : list string)
    : list ChunkRecord :=
  mapWithIndex (toChunkRecord documentId userId extractedText pageCount sections)
    textChunks 0.

End Processor.

(** ** Procedures of the router that call the store *)
Module Router.
Import JsString.

(** [documents.getChunks]: the chunks of a document, after the check
    that the caller owns it *)
Definition getChunks (db : Db.Connection) (userId documentId : Z)
    : list DocumentChunk.t :=
  match Db.getDocumentById db documentId userId with
  | None => []
  | Some _ => Db.getChunksByDocumentId db documentId
  end.

(** The title [chat.send] and [chat.quickAsk] derive from a message *)
Definition titleOf (message : string) : string :=
  if 50 <? len message then substring0 message 47 ++ "..." else message.

End Router.

(** ** The streaming wrapper of [server/agent.ts] *)
Module Stream.
Import JsString Js.

(** What the generator yields: [{type, data}] *)
Inductive Event :=
| tool (data : ToolCallResult.t)
| content (data : string)
| citation (data : Citation.t)
| done (data : AgentResponse.t).

Fixpoint splitScanOn (sep : ascii) (s : string) (cur : list ascii) : list string :=
  match s with
  | EmptyString => [string_of_list_ascii (rev cur)]
  | String c r =>
      if Ascii.eqb c sep then string_of_list_ascii (rev cur) :: splitScanOn sep r []
      else splitScanOn sep r (c :: cur)
  end.

(** [s.split(' ')] *)
Definition splitOnSpace (s : string) : list string := splitScanOn " "%char s [].

(** The loop [for (let i = 0; i < words.length; i += 3)]: the words
    are taken three at a time, and each step yields what has been
    accumulated, trimmed. *)
Fixpoint contentSteps (words : list string) (accumulated : string) : list string :=
  match words with
  | [] => []
  | a :: b :: c :: rest =>
      let accumulated' := accumulated ++ join " " [a; b; c] ++ " " in
      trim accumulated' :: contentSteps rest accumulated'
  | few =>
      let accumulated' := accumulated ++ join " " few ++ " " in
      [trim accumulated']
  end.

(** The events [runAgentStream] yields for a response of [runAgent], and
    how the generator ends. A content that is [undefined] makes
    [response.content.split] throw after the tool events. *)
Definition yields (response : AgentResponse.t) : list Event * Exc unit :=
  let tools := map tool (AgentResponse.toolCalls response) in
  match AgentResponse.content response with
  | None => (tools, Thrown "TypeError")
  | Some text =>
      ((tools
        ++ map content (contentSteps (splitOnSpace text) "")
        ++ map citation (AgentResponse.citations response)
        ++ [done response])%list,
       Normal tt)
  end.

(** [runAgentStream] *)
Definition runAgentStream (db : Db.Connection)
    (invokeLLM : Llm.InvokeParams -> Llm.InvokeResult)
    (userId : Z) (userMessage : string) (conversationHistory : list Llm.Message)
    : M (list Event * Exc unit) :=
  bindM (Agent.runAgent db invokeLLM userId userMessage conversationHistory)
        (fun response => ret (yields response)).

End Stream.

(** ** Further notions used in the properties *)
Module StringSpec.
Import JsString.

(** The first character of a string, if any, is no white space. *)
Definition cleanStart (s : string) : Prop :=
  match s with
  | EmptyString => True
  | String c _ => isWhiteSpace c = false
  end.

(** The last character of a string is white space. *)
Fixpoint endsWithWhiteSpace (s : string) : bool :=
  match s with
  | EmptyString => false
  | String c EmptyString => isWhiteSpace c
  | String _ r => endsWithWhiteSpace r
  end.

End StringSpec.

Module ChunkerSpec.

(** The least distance between the starts of two consecutive windows:
    a whole window, or half a window and two characters when a boundary
    marker moves the end, less the overlap. *)
Definition minAdvance (chunkSize overlap : Z) : Z :=
  Z.min chunkSize (chunkSize / 2 + 2) - overlap.

End ChunkerSpec.

(** ** Surroundings and requests used in further examples *)
Module Scenario2.
Import Js.

(** Surroundings in which every pattern and every code string is
    refused and the owner notification succeeds *)
Definition lockedWorld : World :=
  mkWorld (fun _ _ _ => Thrown "SyntaxError") (fun _ => Thrown "EvalError")
          (fun _ _ => Normal true).

(** The same surroundings with an owner notification that fails *)
Definition deafWorld : World :=
  mkWorld (fun _ _ _ => Thrown "SyntaxError") (fun _ => Thrown "EvalError")
          (fun _ _ => Thrown "NotificationError").

(** Surroundings in which every code string evaluates to 42 *)
Definition answerWorld : World :=
  mkWorld (fun _ _ _ => Thrown "SyntaxError") (fun _ => Normal (VNum 42%float))
          (fun _ _ => Normal true).

(** Surroundings in which every code string evaluates to a symbol: it
    has no conversion to a string, and [JSON.stringify] leaves it out *)
Definition symbolWorld : World :=
  mkWorld (fun _ _ _ => Thrown "SyntaxError")
          (fun _ => Normal (VOther (Thrown "TypeError") (Normal tt)))
          (fun _ _ => Normal true).

(** Surroundings in which every code string evaluates to a BigInt: the
    template literal shows it, and [JSON.stringify] throws *)
Definition bigintWorld : World :=
  mkWorld (fun _ _ _ => Thrown "SyntaxError")
          (fun _ => Normal (VOther (Normal "42") (Thrown "TypeError")))
          (fun _ _ => Normal true).

(** [calculate("custom", {}, formula: "6 * 7")] *)
Definition sixTimesSeven : Calc.Input :=
  Calc.mkInput "custom" [] (Some "6 * 7") None None.

(** A response of the agent with a content of seven words *)
Definition sevenWords : AgentResponse.t :=
  AgentResponse.mk (Some "one two three four five six seven") [Scenario.cite12] [].

End Scenario2.

(** * Properties *)

(** ** Chunker *)
Module ChunkerProps.
Import JsString Chunker.

Lemma breakPoints_nonempty : Forall (fun bp => 1 <= len bp) breakPoints.
Proof. repeat constructor; vm_compute; discriminate. Qed.

(** A moved end lies more than half a window plus one marker after the
    start; an end that is not moved is a whole window after it. *)
Lemma breakAt_bound text start chunkSize end_ bps :
  Forall (fun bp => 1 <= len bp) bps ->
  breakAt text start chunkSize end_ bps = end_
  \/ 2 * start + chunkSize + 2 < 2 * breakAt text start chunkSize end_ bps.
Proof.
  induction 1 as [| bp rest Hbp _ IH]; cbn [breakAt].
  - now left.
  - destruct (2 * start + chunkSize <? 2 * lastIndexOf text bp end_) eqn:E.
    + right. apply Z.ltb_lt in E. cbv beta in Hbp. lia.
    + exact IH.
Qed.

Lemma windowEnd_bound text chunkSize start :
  windowEnd text chunkSize start = start + chunkSize
  \/ 2 * start + chunkSize + 2 < 2 * windowEnd text chunkSize start.
Proof.
  unfold windowEnd.
  destruct (start + chunkSize <? len text).
  - apply breakAt_bound, breakPoints_nonempty.
  - now left.
Qed.

Lemma nextStart_progress text chunkSize overlap start :
  overlap < chunkSize -> 2 * overlap <= chunkSize + 2 ->
  start < nextStart text chunkSize overlap start.
Proof.
  intros H1 H2. unfold nextStart.
  destruct (windowEnd_bound text chunkSize start) as [E | E]; lia.
Qed.

Lemma walk_terminates text chunkSize overlap :
  overlap < chunkSize -> 2 * overlap <= chunkSize + 2 ->
  forall fuel start chunks,
    (0 < fuel)%nat -> len text - start < Z.of_nat fuel ->
    exists out, walk fuel text chunkSize overlap start chunks = Some out.
Proof.
  intros H1 H2. induction fuel as [| fuel IH]; intros start chunks Hpos Hfuel.
  - lia.
  - simpl. destruct (start <? len text) eqn:E.
    + apply Z.ltb_lt in E.
      pose proof (nextStart_progress text chunkSize overlap start H1 H2).
      apply IH; lia.
    + eauto.
Qed.

Lemma walk_more_fuel text chunkSize overlap fuel :
  forall start chunks out,
    walk fuel text chunkSize overlap start chunks = Some out ->
    forall fuel', (fuel <= fuel')%nat ->
    walk fuel' text chunkSize overlap start chunks = Some out.
Proof.
  induction fuel as [| fuel IH]; intros start chunks out Hw fuel' Hle.
  - discriminate.
  - destruct fuel' as [| fuel']; [lia |].
    simpl in *. destruct (start <? len text).
    + apply IH with (fuel' := fuel') in Hw; [exact Hw | lia].
    + exact Hw.
Qed.

(** C9, as amended. For every text and every window size and overlap
    with [0 <= overlap < chunkSize] and [2 * overlap <= chunkSize + 2]
    (the defaults 2000 and 200 among them), each iteration moves the
    start strictly forward, and [splitIntoChunks] terminates: it returns
    one and the same list of chunks for every amount of fuel above the
    length of the text. *)
Theorem splitIntoChunks_terminates text chunkSize overlap :
  0 <= overlap -> overlap < chunkSize -> 2 * overlap <= chunkSize + 2 ->
  (forall start, start < nextStart text chunkSize overlap start)
  /\ exists chunks, forall fuel,
       (String.length text < fuel)%nat ->
       splitIntoChunks fuel text chunkSize overlap = Some chunks.
Proof.
  intros _ H1 H2. split.
  - intro start. now apply nextStart_progress.
  - destruct (walk_terminates text chunkSize overlap H1 H2
                (S (String.length text)) 0 []) as [out Hout].
    + lia.
    + unfold len. lia.
    + exists (dropTiny out). intros fuel Hfuel. unfold splitIntoChunks.
      rewrite (walk_more_fuel _ _ _ _ _ _ _ Hout fuel); [reflexivity | lia].
Qed.

Lemma splitIntoChunks_terminates_witness :
  (0 <= CHUNK_OVERLAP /\ CHUNK_OVERLAP < CHUNK_SIZE
   /\ 2 * CHUNK_OVERLAP <= CHUNK_SIZE + 2)
  /\ (forall start,
        start < nextStart Scenario.sentence CHUNK_SIZE CHUNK_OVERLAP start)
  /\ exists chunks, forall fuel,
       (String.length Scenario.sentence < fuel)%nat ->
       splitIntoChunks fuel Scenario.sentence CHUNK_SIZE CHUNK_OVERLAP = Some chunks.
Proof.
  split; [unfold CHUNK_SIZE, CHUNK_OVERLAP; lia |].
  apply (splitIntoChunks_terminates Scenario.sentence CHUNK_SIZE CHUNK_OVERLAP);
    unfold CHUNK_SIZE, CHUNK_OVERLAP; lia.
Defined.

(** With a window of 5 and an overlap of 4 the line break after three
    characters pulls the end of the first window back to 4, the next
    window starts at 0 again, and the loop never exits. *)
Lemma walk_stuck fuel :
  forall chunks, walk fuel Scenario.brokenLine 5 4 0 chunks = None.
Proof.
  induction fuel as [| fuel IH]; intro chunks.
  - reflexivity.
  - change (walk (S fuel) Scenario.brokenLine 5 4 0 chunks)
      with (walk fuel Scenario.brokenLine 5 4 0 (chunks ++ ["abc"])).
    apply IH.
Qed.

Lemma splitIntoChunks_overlap_4_of_5_diverges :
  (0 <= 4 /\ 4 < 5)
  /\ nextStart Scenario.brokenLine 5 4 0 = 0
  /\ forall fuel, splitIntoChunks fuel Scenario.brokenLine 5 4 = None.
Proof.
  split; [lia |]. split; [reflexivity |].
  intro fuel. unfold splitIntoChunks. now rewrite walk_stuck.
Qed.

Lemma dropTiny_In chunks c :
  In c (dropTiny chunks) <-> In c chunks /\ 50 < len c.
Proof.
  unfold dropTiny. rewrite filter_In, Z.ltb_lt. tauto.
Qed.

(** C8, as amended. For every text and every window size and overlap
    with [0 <= overlap < chunkSize] and [2 * overlap <= chunkSize + 2]
    (the defaults among them), the walk over the text ends with a list
    of trimmed window slices, and [splitIntoChunks] returns the slices
    longer than 50 characters in their order, for every amount of fuel
    above the length of the text: every returned chunk is a slice of
    more than 50 characters (so of at least 50), and every slice of more
    than 50 characters is returned. *)
Theorem splitIntoChunks_drops_tiny text chunkSize overlap :
  0 <= overlap -> overlap < chunkSize -> 2 * overlap <= chunkSize + 2 ->
  exists slices out,
    (forall fuel, (String.length text < fuel)%nat ->
       walk fuel text chunkSize overlap 0 [] = Some slices
       /\ splitIntoChunks fuel text chunkSize overlap = Some out)
    /\ out = filter (fun c => 50 <? len c) slices
    /\ (forall c, In c out -> In c slices /\ 50 < len c /\ 50 <= len c)
    /\ (forall c, In c slices -> 50 < len c -> In c out).
Proof.
  intros _ H1 H2.
  destruct (walk_terminates text chunkSize overlap H1 H2
              (S (String.length text)) 0 []) as [slices Hw];
    [lia | unfold len; lia |].
  exists slices, (dropTiny slices). split; [| split; [reflexivity | split]].
  - intros fuel Hfuel.
    assert (Hw' : walk fuel text chunkSize overlap 0 [] = Some slices)
      by (apply (walk_more_fuel _ _ _ _ _ _ _ Hw); lia).
    split; [exact Hw' |]. unfold splitIntoChunks. now rewrite Hw'.
  - intros c Hc. apply dropTiny_In in Hc. destruct Hc as [Hin Hlen].
    repeat split; [exact Hin | exact Hlen | lia].
  - intros c Hc Hlen. apply dropTiny_In. tauto.
Qed.

Lemma splitIntoChunks_drops_tiny_witness :
  (0 <= 10 /\ 10 < 100 /\ 2 * 10 <= 100 + 2)
  /\ exists slices out,
       (forall fuel, (String.length Scenario.twoSlices < fuel)%nat ->
          walk fuel Scenario.twoSlices 100 10 0 [] = Some slices
          /\ splitIntoChunks fuel Scenario.twoSlices 100 10 = Some out)
       /\ out = filter (fun c => 50 <? len c) slices
       /\ (forall c, In c out -> In c slices /\ 50 < len c /\ 50 <= len c)
       /\ (forall c, In c slices -> 50 < len c -> In c out).
Proof.
  split; [lia |].
  apply (splitIntoChunks_drops_tiny Scenario.twoSlices 100 10); lia.
Defined.

(** The text of 120 characters under a window of 100 and an overlap of
    10: the walk gives a slice of 100 and a slice of 30 characters, and
    the second is dropped. *)
Example twoSlices_one_chunk :
  walk 121 Scenario.twoSlices 100 10 0 []
  = Some [string_of_list_ascii (repeat "a"%char 100);
          string_of_list_ascii (repeat "a"%char 30)]
  /\ splitIntoChunks 121 Scenario.twoSlices 100 10
     = Some [string_of_list_ascii (repeat "a"%char 100)].
Proof. split; vm_compute; reflexivity. Qed.

(** A text of exactly 50 characters is one window; its slice has length
    50, which is not shorter than 50, and it is dropped. *)
Lemma chunk_of_fifty_characters_dropped :
  walk 2 Scenario.fiftyChars CHUNK_SIZE CHUNK_OVERLAP 0 [] = Some [Scenario.fiftyChars]
  /\ len Scenario.fiftyChars = 50
  /\ splitIntoChunks 2 Scenario.fiftyChars CHUNK_SIZE CHUNK_OVERLAP = Some [].
Proof. repeat split. Qed.

End ChunkerProps.

(** ** Store *)
Module DbProps.

Lemma insertBy_In {A} (leb : A -> A -> bool) (x y : A) (l : list A) :
  In y (Db.insertBy leb x l) <-> y = x \/ In y l.
Proof.
  induction l as [| z l IH]; simpl.
  - intuition congruence.
  - destruct (leb x z); simpl; rewrite ?IH; intuition congruence.
Qed.

(** [ORDER BY] keeps the rows and changes their order only. *)
Lemma orderBy_In {A} (leb : A -> A -> bool) (y : A) (l : list A) :
  In y (Db.orderBy leb l) <-> In y l.
Proof.
  unfold Db.orderBy. induction l as [| x l IH]; simpl.
  - tauto.
  - rewrite insertBy_In, IH. intuition congruence.
Qed.

Lemma getDocumentsByUserId_In (t : Db.Tables) (userId : Z) (d : Document.t) :
  In d (Db.getDocumentsByUserId (Some t) userId)
  <-> In d (Db.documents t) /\ Document.userId d = userId.
Proof.
  unfold Db.getDocumentsByUserId. now rewrite orderBy_In, filter_In, Z.eqb_eq.
Qed.

Lemma getChunksByUserDocuments_In (t : Db.Tables) (userId : Z) (c : DocumentChunk.t) :
  In c (Db.getChunksByUserDocuments (Some t) userId None)
  <-> In c (Db.documentChunks t) /\ DocumentChunk.userId c = userId.
Proof.
  unfold Db.getChunksByUserDocuments. now rewrite orderBy_In, filter_In, Z.eqb_eq.
Qed.

(** What [deleteDocument] does for a caller who does not own the
    document: no row of [documents] goes and the call reports failure,
    yet every chunk of the document is gone, whoever owns it. *)
Lemma deleteDocument_not_owner (t : Db.Tables) (id userId : Z) :
  Db.getDocumentById (Some t) id userId = None ->
  exists t',
    Db.deleteDocument (Some t) id userId = (Some t', false)
    /\ Db.documents t' = Db.documents t
    /\ Db.documentChunks t'
       = filter (fun c => negb (DocumentChunk.documentId c =? id)) (Db.documentChunks t)
    /\ Db.conversations t' = Db.conversations t
    /\ Db.messages t' = Db.messages t
    /\ Db.reports t' = Db.reports t.
Proof.
  unfold Db.getDocumentById, Db.deleteDocument. intro Hnone. cbv zeta.
  set (hit := fun d => (Document.id d =? id) && (Document.userId d =? userId)) in *.
  assert (Hall : forall d, In d (Db.documents t) -> hit d = false).
  { intros d Hd. destruct (hit d) eqn:E; [| reflexivity].
    assert (Hin : In d (filter hit (Db.documents t))) by (apply filter_In; auto).
    destruct (filter hit (Db.documents t)); [destruct Hin | discriminate]. }
  assert (Hkeep : filter (fun d => negb (hit d)) (Db.documents t) = Db.documents t).
  { clear Hnone. induction (Db.documents t) as [| d l IH]; simpl; [reflexivity |].
    rewrite (Hall d (or_introl eq_refl)). simpl. f_equal.
    apply IH. intros d' Hd'. apply Hall. now right. }
  assert (Hnil : filter hit (Db.documents t) = []).
  { destruct (filter hit (Db.documents t)); [reflexivity | discriminate]. }
  exists (Db.mkTables (Db.documents t)
            (filter (fun c => negb (DocumentChunk.documentId c =? id))
                    (Db.documentChunks t))
            (Db.conversations t) (Db.messages t) (Db.reports t)).
  split; [| repeat split].
  unfold hit in *. cbv beta in *. now rewrite Hnil, Hkeep.
Qed.

(** C3, on the code. User 2 asks to delete document 7 of user 1. The
    call reports failure and leaves the [documents] table as it was, but
    both chunks of document 7, rows of user 1, are deleted. *)
Theorem deleteDocument_of_other_user_deletes_chunks :
  Db.getDocumentById (Some Scenario.store) 7 2 = None
  /\ Db.getChunksByDocumentId (Some Scenario.store) 7
     = [Scenario.chunk7a; Scenario.chunk7b]
  /\ map DocumentChunk.userId [Scenario.chunk7a; Scenario.chunk7b] = [1; 1]
  /\ Db.deleteDocument (Some Scenario.store) 7 2
     = (Some (Db.mkTables [Scenario.doc7; Scenario.doc12; Scenario.doc8]
                          [Scenario.chunk12; Scenario.chunk8] [] [] []), false)
  /\ Db.getChunksByDocumentId (fst (Db.deleteDocument (Some Scenario.store) 7 2)) 7 = [].
Proof. repeat split. Qed.

End DbProps.

(** ** Retrieval search *)
Module SearchProps.
Import JsString SearchSpec.

Lemma prefix_iff (p s : string) :
  prefix p s = true <-> exists after, s = p ++ after.
Proof.
  revert s. induction p as [| a p IH]; intro s; simpl.
  - split; [intros _; now exists s | destruct s; reflexivity].
  - destruct s as [| b s]; simpl.
    + split; [discriminate | intros [after H]; discriminate].
    + destruct (ascii_dec a b) as [-> | Hne].
      * rewrite IH. split; intros [after H]; exists after; congruence.
      * split; [discriminate | intros [after H]; congruence].
Qed.

Lemma includesFrom_iff (t : string) :
  forall s fuel, (String.length s <= fuel)%nat ->
    includesFrom fuel s t = true <-> isSubstringOf t s.
Proof.
  unfold isSubstringOf.
  induction s as [| c r IH]; intros fuel Hfuel.
  - assert (E : includesFrom fuel "" t = prefix t "") by (destruct fuel; simpl; apply orb_false_r).
    rewrite E, prefix_iff. split.
    + intros [after H]. now exists "", after.
    + intros [[| ? ?] [after H]]; [now exists after | discriminate].
  - destruct fuel as [| fuel]; [simpl in Hfuel; lia |].
    cbn [includesFrom]. rewrite orb_true_iff, prefix_iff, (IH fuel) by (simpl in Hfuel; lia).
    split.
    + intros [[after H] | [before [after H]]].
      * now exists "", after.
      * exists (String c before), after. simpl. congruence.
    + intros [[| c' before] [after H]]; simpl in H.
      * left. now exists after.
      * right. exists before, after. congruence.
Qed.

(** [includes] decides the substring relation. *)
Lemma includes_iff (s t : string) : includes s t = true <-> isSubstringOf t s.
Proof. unfold includes. now apply includesFrom_iff. Qed.

Lemma relevantDocs_In documents documentTypes d :
  In d (Search.relevantDocs documents documentTypes)
  <-> In d documents /\ passesTypeFilter documentTypes d.
Proof.
  unfold Search.relevantDocs, passesTypeFilter.
  destruct documentTypes as [[| ty tys] |]; try tauto.
  rewrite filter_In, existsb_exists. split.
  - intros [Hd [x [Hx E]]]. apply String.eqb_eq in E. now subst x.
  - intros [Hd Hx]. split; [exact Hd |]. eexists. split; [exact Hx | apply String.eqb_refl].
Qed.

(** *** Lower-casing *)





(** *** Strings and their ends *)











(** *** The pieces of [split(/\s+/)] *)









(** *** The filter of [searchDocuments] *)












End SearchProps.

(** ** Calculation engine *)
Module CalcProps.
Import Js Calc CalcSpec.

Lemma run_bind {A B} (w : World) (p : Prog A) (f : A -> Prog B) :
  run w (bind p f) = run w (f (run w p)).
Proof. induction p; simpl; auto. Qed.

(** An exception of the [try] block ends in the [catch] clause. *)
Lemma run_tryCatch {A B} (w : World) (body : M A) (rest : A -> M B)
    (handler : string -> M B) :
  run w (tryCatch body rest handler)
  = match run w body with
    | Normal a => run w (rest a)
    | Thrown e => run w (handler e)
    end.
Proof. unfold tryCatch. rewrite run_bind. now destruct (run w body). Qed.

Ltac branch :=
  repeat match goal with
         | |- context [if ?b then _ else _] => destruct b
         end.

(** C4. For every input and whatever the regular expression engine and
    dynamic evaluation answer (exceptions included), [executeCalculation]
    completes normally, and what it returns is a structured error or a
    structured success with a result, an explanation, the calculation
    type and the values of the input. *)
Theorem executeCalculation_never_throws (w : World) (input : Input) :
  exists output,
    run w (executeCalculation input) = Normal output /\ structured input output.
Proof.
  unfold executeCalculation. cbv zeta.
  destruct (truthyStr (formula input)); branch;
    try (eexists; split; [reflexivity | simpl; auto]).
  rewrite run_tryCatch.
  destruct (run w (customBody (strOpt (formula input)) (values input)))
    as [[result explanation] | e];
    eexists; (split; [reflexivity | simpl; auto]).
Qed.

(** What the area branch does with a length and a width: it multiplies
    them when both are numbers other than [0] and [NaN]. *)
Lemma area_of_rectangle (input : Input) (l w : float) :
  calculation_type input = "area" ->
  get "length" (values input) = Some l -> get "width" (values input) = Some w ->
  JsNumber.truthy l = true -> JsNumber.truthy w = true ->
  executeCalculation input
  = ret (Success (VNum (l * w)%float)
           ("Area = " ++ JsNumber.toString l ++ " × " ++ JsNumber.toString w ++ " = "
            ++ JsNumber.toString (l * w)%float ++ " square units")
           "area" (values input)).
Proof.
  intros Hty Hl Hw Tl Tw. unfold executeCalculation. cbv zeta. rewrite Hty.
  change (("area" =? "area")%string) with true. cbv iota.
  unfold truthyAt, num, str. rewrite Hl, Hw. simpl. now rewrite Tl, Tw.
Qed.

(** The example of the specification: 4 by 5 gives 20, and the
    explanation shows the three numbers. *)
Lemma area_of_4_by_5 :
  executeCalculation Scenario.area4by5
  = ret (Success (VNum 20%float) "Area = 4 × 5 = 20 square units" "area"
           [("length", 4%float); ("width", 5%float)])
  /\ JsString.includes "Area = 4 × 5 = 20 square units" "4" = true
  /\ JsString.includes "Area = 4 × 5 = 20 square units" "5" = true
  /\ JsString.includes "Area = 4 × 5 = 20 square units" "20" = true.
Proof. repeat split; vm_compute; reflexivity. Qed.

(** C5, on the code. With a length of 0 and a width of 5, both present
    in the map, the area branch does not return 0: the test
    [values.length && values.width] takes the length for missing and the
    call returns the error about missing values. *)
Theorem area_with_zero_length_reported_missing :
  get "length" (values Scenario.area0by5) = Some 0%float
  /\ get "width" (values Scenario.area0by5) = Some 5%float
  /\ get "radius" (values Scenario.area0by5) = None
  /\ executeCalculation Scenario.area0by5
     = ret (Failure "Missing required values for area calculation (length/width or radius)").
Proof. repeat split; vm_compute; reflexivity. Qed.

Lemma get_In key (o : Values) x : get key o = Some x -> In (key, x) o.
Proof.
  unfold get. destruct (find _ o) as [[k y] |] eqn:E; [| discriminate].
  simpl. intros [= ->]. apply find_some in E. destruct E as [Hin E].
  apply String.eqb_eq in E. simpl in E. now subst k.
Qed.

(** No factor of the table is [0] or [NaN]. *)
Lemma factors_truthy category key factor :
  In category UNIT_CONVERSIONS -> get key (snd category) = Some factor ->
  JsNumber.truthy factor = true.
Proof.
  intros Hc Hg. apply get_In in Hg.
  assert (H : forallb (fun c => forallb (fun kv => JsNumber.truthy (snd kv)) (snd c))
                UNIT_CONVERSIONS = true) by (vm_compute; reflexivity).
  rewrite forallb_forall in H. specialize (H _ Hc).
  rewrite forallb_forall in H. exact (H _ Hg).
Qed.

(** The loop of the conversion branch finds the factor of the first
    category that contains the key. *)
Lemma findFactor_first_category key :
  findFactor key (map snd UNIT_CONVERSIONS) = firstCategoryFactor key.
Proof.
  unfold firstCategoryFactor.
  assert (H : forall c k f, In c UNIT_CONVERSIONS -> get k (snd c) = Some f ->
                            JsNumber.truthy f = true) by exact factors_truthy.
  induction UNIT_CONVERSIONS as [| c cs IH]; simpl; [reflexivity |].
  unfold truthyAt, defined.
  destruct (get key (snd c)) as [f |] eqn:E; simpl.
  - now rewrite (H c key f (or_introl eq_refl) E).
  - apply IH. intros c' k f' Hc'. apply H. now right.
Qed.

Lemma firstCategoryFactor_truthy key factor :
  firstCategoryFactor key = Some factor -> JsNumber.truthy factor = true.
Proof.
  unfold firstCategoryFactor.
  destruct (find _ UNIT_CONVERSIONS) as [c |] eqn:E; [| discriminate].
  apply find_some in E. intro Hg. exact (factors_truthy c key factor (proj1 E) Hg).
Qed.

(** C6, as amended. For every conversion request in which [unit_from]
    and [unit_to] are present and not empty and the values hold a number
    under [value]: the key [from_to_to] is looked up in the categories
    length, area, volume and weight in that order, the first category
    that contains it gives the factor, and the result is [value * factor];
    a key in no category gives the error that names the conversion.
    Converting 10 from ft to m gives a result within 1e-6 of 3.048. *)
Theorem conversion_contract (input : Input) (from to : string) (value : float) :
  calculation_type input = "conversion" ->
  unit_from input = Some from -> unit_to input = Some to ->
  from <> "" -> to <> "" ->
  get "value" (values input) = Some value ->
  map fst UNIT_CONVERSIONS = ["length"; "area"; "volume"; "weight"]
  /\ findFactor (from ++ "_to_" ++ to) (map snd UNIT_CONVERSIONS)
     = firstCategoryFactor (from ++ "_to_" ++ to)
  /\ match firstCategoryFactor (from ++ "_to_" ++ to) with
     | Some factor =>
         executeCalculation input
         = ret (Success (VNum (value * factor)%float)
                  (JsNumber.toString value ++ " " ++ from ++ " = "
                   ++ JsNumber.toFixed (value * factor)%float 4 ++ " " ++ to)
                  "conversion" (values input))
     | None =>
         executeCalculation input
         = ret (Failure ("Conversion from " ++ from ++ " to " ++ to ++ " not supported"))
     end
  /\ exists result explanation,
       executeCalculation Scenario.tenFeet
       = ret (Success (VNum result) explanation "conversion" [("value", 10%float)])
       /\ within (1 # 1000000) (3048 # 1000) result.
Proof.
  intros Hty Hfrom Hto Nfrom Nto Hvalue.
  split; [reflexivity |]. split; [apply findFactor_first_category |]. split.
  - unfold executeCalculation. cbv zeta. rewrite Hty, Hfrom, Hto.
    change (("conversion" =? "area")%string) with false.
    change (("conversion" =? "volume")%string) with false.
    change (("conversion" =? "linear")%string) with false.
    change (("conversion" =? "weight")%string) with false.
    change (("conversion" =? "conversion")%string) with true.
    cbv iota. unfold defined, num, str. rewrite Hvalue.
    destruct from as [| a from]; [congruence |].
    destruct to as [| b to]; [congruence |].
    cbn [truthyStr strOpt andb toNumber]. rewrite findFactor_first_category.
    destruct (firstCategoryFactor _) as [factor |] eqn:E.
    + cbn [truthyNum toNumber]. now rewrite (firstCategoryFactor_truthy _ _ E).
    + reflexivity.
  - eexists. eexists. split; [vm_compute; reflexivity |].
    eexists. split; [vm_compute; reflexivity |]. vm_compute. reflexivity.
Qed.

Lemma conversion_contract_witness :
  (calculation_type Scenario.tenFeet = "conversion"
   /\ unit_from Scenario.tenFeet = Some "ft" /\ unit_to Scenario.tenFeet = Some "m"
   /\ get "value" (values Scenario.tenFeet) = Some 10%float)
  /\ firstCategoryFactor "ft_to_m" = Some 0x1.381d7dbf487fdp-2%float
  /\ executeCalculation Scenario.tenFeet
     = ret (Success (VNum (10 * 0x1.381d7dbf487fdp-2)%float) "10 ft = 3.0480 m"
              "conversion" [("value", 10%float)]).
Proof.
  split; [repeat split |]. split; [reflexivity |].
  assert (N1 : "ft" <> "") by discriminate.
  assert (N2 : "m" <> "") by discriminate.
  exact (proj1 (proj2 (proj2 (conversion_contract Scenario.tenFeet "ft" "m" 10%float
                                eq_refl eq_refl eq_refl N1 N2 eq_refl)))).
Defined.

(** A request with an empty source unit: the key [_to_m] is in no
    category, and the error is the one about missing values, which does
    not name the conversion. *)
Lemma conversion_from_empty_unit_reported_missing :
  unit_from Scenario.tenOfNothing = Some ""
  /\ get "value" (values Scenario.tenOfNothing) = Some 10%float
  /\ firstCategoryFactor ("" ++ "_to_" ++ "m") = None
  /\ executeCalculation Scenario.tenOfNothing
     = ret (Failure "Missing required values for conversion (value, unit_from, unit_to)").
Proof. repeat split; vm_compute; reflexivity. Qed.

End CalcProps.

(** ** Agent loop *)
Module AgentProps.
Import Js Agent.

Lemma run_bindM {A B} (w : World) (m : M A) (f : A -> M B) :
  run w (bindM m f)
  = match run w m with
    | Normal a => run w (f a)
    | Thrown e => Thrown e
    end.
Proof. unfold bindM. rewrite CalcProps.run_bind. now destruct (run w m). Qed.

(** The fallback of the first invocation: without an assistant message
    the agent returns the fallback text, which is not empty, and no
    citation and no tool call. *)
Lemma runAgent_first_invocation_fallback db invokeLLM userId userMessage history :
  (forall p, Llm.tools p = true -> firstMessage (invokeLLM p) = None) ->
  runAgent db invokeLLM userId userMessage history
  = ret (AgentResponse.mk (Some FALLBACK) [] [])
  /\ FALLBACK <> "".
Proof.
  intro H. split; [| discriminate].
  unfold runAgent. cbv zeta. now rewrite H.
Qed.

(** Every tool call of the round leaves one entry in [toolCalls]. *)
Lemma toolRound_toolCalls w db userId calls :
  forall st st',
    run w (toolRound db userId calls st) = Normal st' ->
    List.length (toolCalls st')
    = (List.length (toolCalls st) + List.length calls)%nat.
Proof.
  induction calls as [| call calls IH]; intros st st' H.
  - simpl in H. injection H as <-. simpl. lia.
  - cbn [toolRound] in H. rewrite run_bindM in H.
    destruct (run w (dispatch db userId (Llm.function call))) as [[output cited] | e];
      [| discriminate].
    rewrite run_bindM in H.
    destruct (run w (stringify output)) as [serialized | e]; [| discriminate].
    apply IH in H. cbn [toolCalls] in H. rewrite length_app in H. simpl in *. lia.
Qed.

(** What the second invocation leads to when it yields no assistant
    message: whenever the tool round completes, the agent returns a
    response whose content is [undefined] and whose [toolCalls] list is
    not empty. *)
Lemma runAgent_second_invocation_no_fallback w db invokeLLM userId userMessage history
    assistantMessage call calls response :
  (forall p, Llm.tools p = true -> firstMessage (invokeLLM p) = Some assistantMessage) ->
  Llm.tool_calls assistantMessage = Some (call :: calls) ->
  (forall p, Llm.tools p = false -> firstMessage (invokeLLM p) = None) ->
  run w (runAgent db invokeLLM userId userMessage history) = Normal response ->
  AgentResponse.content response = None
  /\ AgentResponse.toolCalls response <> [].
Proof.
  intros H1 Hcalls H2 Hrun. unfold runAgent in Hrun. cbv zeta in Hrun.
  rewrite H1, Hcalls in Hrun by reflexivity. rewrite run_bindM in Hrun.
  destruct (run w (toolRound db userId (call :: calls) (mkRound [] [] [])))
    as [st |] eqn:E; [| discriminate].
  rewrite H2 in Hrun by reflexivity. simpl in Hrun. injection Hrun as <-.
  apply toolRound_toolCalls in E. simpl in *. split; [reflexivity |].
  destruct (toolCalls st); [discriminate | discriminate].
Qed.

(** C1, on the code. The model answers the first invocation with a call
    of [calculate_quantity] and the second without any choice. The agent
    does not fall back: the content of its response is [undefined], not a
    text, and [toolCalls] holds the call that was executed. *)
Theorem runAgent_without_final_message :
  firstMessage Scenario.noMessage = None
  /\ runAgent (Some Scenario.store)
       (Scenario.scripted (Scenario.asksFor (calculate_quantity Scenario.area4by5))
                          Scenario.noMessage)
       1 "What is the area of a 4 by 5 slab?" []
     = ret (AgentResponse.mk None []
              [ToolCallResult.mk "calculate_quantity"
                 (calculate_quantity Scenario.area4by5)
                 (CalculationOutput
                    (Calc.Success (VNum 20%float) "Area = 4 × 5 = 20 square units" "area"
                       [("length", 4%float); ("width", 5%float)]))]).
Proof. split; vm_compute; reflexivity. Qed.

Lemma keyed_nil : keyed [].
Proof. split; [intros k c [] | constructor]. Qed.

Lemma mapSet_keys key c m :
  map fst (mapSet key c m)
  = if existsb (String.eqb key) (map fst m) then map fst m
    else (map fst m ++ [key])%list.
Proof.
  induction m as [| [k old] m IH]; simpl; [reflexivity |].
  rewrite (String.eqb_sym key k).
  destruct (String.eqb k key) eqn:E; simpl; [reflexivity |].
  rewrite IH. now destruct (existsb _ _).
Qed.

Lemma mapSet_In key c m k' c' :
  In (k', c') (mapSet key c m) -> (k' = key /\ c' = c) \/ In (k', c') m.
Proof.
  induction m as [| [k old] m IH]; simpl.
  - intros [[= <- <-] | []]. now left.
  - destruct (String.eqb k key) eqn:E; simpl.
    + apply String.eqb_eq in E. subst k.
      intros [[= <- <-] | H]; [now left | now right; right].
    + intros [H | H]; [now right; left |].
      destruct (IH H); [now left | now right; right].
Qed.

Lemma mapSet_keyed c m : keyed m -> keyed (mapSet (citationKey c) c m).
Proof.
  intros [Hk Hnd]. split.
  - intros k' c' H. apply mapSet_In in H. destruct H as [[-> ->] | H]; auto.
  - rewrite mapSet_keys.
    destruct (existsb _ _) eqn:E; [exact Hnd |].
    apply NoDup_app; [exact Hnd | repeat constructor; intros [] |].
    intros k Hin [<- | []].
    assert (existsb (String.eqb (citationKey c)) (map fst m) = true); [| congruence].
    apply existsb_exists. exists (citationKey c). split; [exact Hin | apply String.eqb_refl].
Qed.

Lemma fold_keyed cs :
  forall m, keyed m ->
    keyed (fold_left (fun m c => mapSet (citationKey c) c m) cs m).
Proof.
  induction cs as [| c cs IH]; intros m Hm; simpl; [exact Hm |].
  apply IH, mapSet_keyed, Hm.
Qed.

(** The final list never holds two entries with one and the same pair of
    document id and excerpt. *)
Lemma dedupe_at_most_one_per_pair cs :
  NoDup (map citationKey (dedupe cs)).
Proof.
  unfold dedupe.
  destruct (fold_keyed cs [] keyed_nil) as [Hk Hnd].
  set (m := fold_left _ cs []) in *.
  assert (E : map citationKey (map snd m) = map fst m).
  { rewrite map_map. apply map_ext_in. intros [k c] Hin. simpl. symmetry. now apply Hk. }
  now rewrite E.
Qed.

(** C2, on the code. Two citations that differ in document id and in
    excerpt, (1, "23 MPa concrete") and (12, "3 MPa concrete"), get one
    and the same key "123 MPa concrete"; the map keeps the later one
    only, and the response of the agent after a search that finds both
    chunks holds one citation. *)
Theorem runAgent_merges_distinct_citations :
  Search.searchDocuments (Some Scenario.mixStore) 1 "concrete" None
  = [Search.mkHit "23 MPa concrete" Scenario.cite1;
     Search.mkHit "3 MPa concrete" Scenario.cite12]
  /\ Citation.documentId Scenario.cite1 = 1
  /\ Citation.documentId Scenario.cite12 = 12
  /\ citationKey Scenario.cite1 = "123 MPa concrete"
  /\ citationKey Scenario.cite12 = "123 MPa concrete"
  /\ dedupe [Scenario.cite1; Scenario.cite12] = [Scenario.cite12]
  /\ runAgent (Some Scenario.mixStore)
       (Scenario.scripted (Scenario.asksFor (search_documents "concrete" None))
                          (Scenario.says "See the cited sections."))
       1 "Which concrete is specified?" []
     = ret (AgentResponse.mk (Some "See the cited sections.") [Scenario.cite12]
              [ToolCallResult.mk "search_documents" (search_documents "concrete" None)
                 (SearchOutput 2
                    [Search.mkHit "23 MPa concrete" Scenario.cite1;
                     Search.mkHit "3 MPa concrete" Scenario.cite12])]).
Proof. repeat split; vm_compute; reflexivity. Qed.

End AgentProps.

(** ** More on strings *)
Module StringFacts.
Import JsString SearchSpec StringSpec.

Lemma len_nonneg s : 0 <= len s.
Proof. unfold len. lia. Qed.

Lemma len_append a b : len (a ++ b) = len a + len b.
Proof.
  unfold len. induction a as [| c a IH]; [simpl; lia |].
  change (String c a ++ b) with (String c (a ++ b)).
  cbn [String.length]. lia.
Qed.

Lemma append_nil_r (s : string) : s ++ "" = s.
Proof. induction s; simpl; congruence. Qed.

Lemma append_assoc (a b c : string) : (a ++ b) ++ c = a ++ b ++ c.
Proof. induction a; simpl; congruence. Qed.

Lemma isSubstringOf_refl s : isSubstringOf s s.
Proof. exists "", "". simpl. now rewrite append_nil_r. Qed.

Lemma isSubstringOf_trans a b c :
  isSubstringOf a b -> isSubstringOf b c -> isSubstringOf a c.
Proof.
  intros [p [q ->]] [p' [q' ->]]. exists (p' ++ p), (q ++ q').
  now rewrite !append_assoc.
Qed.

Lemma isSubstringOf_len a b : isSubstringOf a b -> len a <= len b.
Proof.
  intros [p [q ->]]. rewrite !len_append.
  pose proof (len_nonneg p). pose proof (len_nonneg q). lia.
Qed.

Lemma substring0_prefix m s : exists after, s = substring 0 m s ++ after.
Proof.
  revert m. induction s as [| c s IH]; intro m.
  - exists "". now destruct m.
  - destruct m as [| m]; simpl.
    + now exists (String c s).
    + destruct (IH m) as [after E]. exists after. congruence.
Qed.

(** [substring n m s] splits [s] into what comes before, the piece and
    what comes after. *)
Lemma substring_split n m s :
  exists before after, s = before ++ substring n m s ++ after.
Proof.
  revert n. induction s as [| c s IH]; intro n.
  - exists "", "". now destruct n, m.
  - destruct n as [| n].
    + destruct (substring0_prefix m (String c s)) as [after E]. now exists "", after.
    + simpl. destruct (IH n) as [before [after E]].
      exists (String c before), after. simpl. congruence.
Qed.

Lemma slice_isSubstringOf s a b : isSubstringOf (slice s a b) s.
Proof. unfold slice, isSubstringOf. apply substring_split. Qed.

Lemma trimStart_suffix s : exists before, s = before ++ trimStart s.
Proof.
  induction s as [| c s [before E]]; simpl.
  - now exists "".
  - destruct (isWhiteSpace c).
    + exists (String c before). simpl. congruence.
    + now exists "".
Qed.

Lemma trimEnd_prefix s : exists after, s = trimEnd s ++ after.
Proof.
  induction s as [| c s [after E]]; simpl.
  - now exists "".
  - destruct (trimEnd s) as [| d r] eqn:T.
    + destruct (isWhiteSpace c); [now exists (String c s) |].
      exists s. reflexivity.
    + exists after. simpl in *. congruence.
Qed.

Lemma trim_isSubstringOf s : isSubstringOf (trim s) s.
Proof.
  unfold trim. destruct (trimStart_suffix s) as [before E].
  destruct (trimEnd_prefix (trimStart s)) as [after E'].
  exists before, after. congruence.
Qed.

Lemma trimStart_clean s : cleanStart (trimStart s).
Proof.
  induction s as [| c s IH]; simpl; [exact I |].
  destruct (isWhiteSpace c) eqn:E; [exact IH | exact E].
Qed.

Lemma trimStart_fixed s : cleanStart s -> trimStart s = s.
Proof. destruct s as [| c s]; simpl; [reflexivity | now intros ->]. Qed.

Lemma trimEnd_clean s : cleanStart s -> cleanStart (trimEnd s).
Proof.
  destruct s as [| c s]; simpl; [exact (fun H => H) |].
  intro H. destruct (trimEnd s); [rewrite H |]; exact H.
Qed.

Lemma trimEnd_idem s : trimEnd (trimEnd s) = trimEnd s.
Proof.
  induction s as [| c s IH]; simpl; [reflexivity |].
  destruct (trimEnd s) as [| d r] eqn:T.
  - destruct (isWhiteSpace c) eqn:W; simpl; [reflexivity | now rewrite W].
  - cbn [trimEnd] in *. rewrite IH. reflexivity.
Qed.

(** Trimming twice is trimming once: a trimmed string neither starts nor
    ends with white space. *)
Lemma trim_idem s : trim (trim s) = trim s.
Proof.
  unfold trim.
  rewrite (trimStart_fixed (trimEnd (trimStart s)))
    by apply trimEnd_clean, trimStart_clean.
  apply trimEnd_idem.
Qed.

End StringFacts.

(** ** More on the chunker *)
Module ChunkerMore.
Import JsString Chunker SearchSpec StringSpec ChunkerSpec StringFacts.

(** Every element the walk adds is a trimmed slice of the text. *)
Lemma walk_elements text chunkSize overlap fuel :
  forall start chunks out,
    walk fuel text chunkSize overlap start chunks = Some out ->
    forall c, In c out -> In c chunks \/ exists a b, c = trim (slice text a b).
Proof.
  induction fuel as [| fuel IH]; intros start chunks out Hw c Hc; [discriminate |].
  simpl in Hw. destruct (start <? len text).
  - destruct (IH _ _ _ Hw c Hc) as [Hin | Hex]; [| now right].
    apply in_app_or in Hin. destruct Hin as [Hin | [<- | []]]; [now left |].
    right. eauto.
  - injection Hw as <-. now left.
Qed.

Lemma chunk_isSubstringOf fuel text chunkSize overlap out c :
  splitIntoChunks fuel text chunkSize overlap = Some out -> In c out ->
  isSubstringOf c text.
Proof.
  unfold splitIntoChunks. intros Hs Hc.
  destruct (walk fuel text chunkSize overlap 0 []) as [slices |] eqn:Hw; [| discriminate].
  injection Hs as <-. apply ChunkerProps.dropTiny_In in Hc. destruct Hc as [Hc _].
  destruct (walk_elements _ _ _ _ _ _ _ Hw c Hc) as [[] | [a [b ->]]].
  eapply isSubstringOf_trans; [apply trim_isSubstringOf | apply slice_isSubstringOf].
Qed.

(** X1. Whenever [splitIntoChunks] returns, every chunk is a contiguous
    piece of the text, so no longer than the text, and it neither starts
    nor ends with white space: trimming it again changes nothing. *)
Theorem splitIntoChunks_chunks_are_trimmed_pieces fuel text chunkSize overlap out :
  splitIntoChunks fuel text chunkSize overlap = Some out ->
  forall c, In c out ->
    isSubstringOf c text /\ len c <= len text /\ trim c = c.
Proof.
  unfold splitIntoChunks. intros Hs c Hc.
  destruct (walk fuel text chunkSize overlap 0 []) as [slices |] eqn:Hw; [| discriminate].
  injection Hs as <-. apply ChunkerProps.dropTiny_In in Hc. destruct Hc as [Hc _].
  destruct (walk_elements _ _ _ _ _ _ _ Hw c Hc) as [[] | [a [b ->]]].
  assert (Hsub : isSubstringOf (trim (slice text a b)) text).
  { eapply isSubstringOf_trans; [apply trim_isSubstringOf | apply slice_isSubstringOf]. }
  split; [exact Hsub |]. split; [now apply isSubstringOf_len | apply trim_idem].
Qed.

Lemma splitIntoChunks_chunks_are_trimmed_pieces_witness :
  splitIntoChunks 2 Scenario.sentence CHUNK_SIZE CHUNK_OVERLAP = Some [Scenario.sentence]
  /\ forall c, In c [Scenario.sentence] ->
       isSubstringOf c Scenario.sentence /\ len c <= len Scenario.sentence /\ trim c = c.
Proof.
  split; [reflexivity |].
  apply (splitIntoChunks_chunks_are_trimmed_pieces 2 Scenario.sentence
           CHUNK_SIZE CHUNK_OVERLAP [Scenario.sentence]).
  reflexivity.
Defined.

Lemma substring0_all n s : (String.length s <= n)%nat -> substring 0 n s = s.
Proof.
  revert n. induction s as [| c s IH]; intros n Hn.
  - now destruct n.
  - destruct n as [| n]; simpl in *; [lia |]. rewrite IH; [reflexivity | lia].
Qed.

(** A slice from the start to at or beyond the end is the whole string. *)
Lemma slice_whole s b : len s <= b -> slice s 0 b = s.
Proof.
  intro Hb. pose proof (len_nonneg s). unfold slice, relIndex.
  replace (0 <? 0) with false by reflexivity.
  replace (b <? 0) with false by (symmetry; apply Z.ltb_ge; lia).
  rewrite Z.min_l, Z.min_r by lia. simpl Z.to_nat.
  apply substring0_all. unfold len. lia.
Qed.

(** X2. For a text no longer than [chunkSize - overlap] characters,
    the empty text included, two units of fuel are enough and the result
    holds at most one chunk: the trimmed text, provided it has more than
    50 characters. *)
Theorem splitIntoChunks_short_text fuel text chunkSize overlap :
  0 <= overlap -> len text <= chunkSize - overlap -> (2 <= fuel)%nat ->
  splitIntoChunks fuel text chunkSize overlap
  = Some (if 50 <? len (trim text) then [trim text] else []).
Proof.
  intros Hov Hlen Hfuel. unfold splitIntoChunks.
  destruct fuel as [| [| fuel]]; try lia.
  cbn [walk]. destruct (0 <? len text) eqn:E.
  - apply Z.ltb_lt in E.
    assert (Hend : windowEnd text chunkSize 0 = chunkSize).
    { unfold windowEnd. simpl. replace (chunkSize <? len text) with false; [reflexivity |].
      symmetry. apply Z.ltb_ge. lia. }
    unfold nextStart. rewrite Hend.
    replace (chunkSize - overlap <? len text) with false
      by (symmetry; apply Z.ltb_ge; lia).
    rewrite slice_whole by lia. reflexivity.
  - apply Z.ltb_ge in E. pose proof (len_nonneg text).
    assert (text = "") by (destruct text; [reflexivity | unfold len in *; simpl in *; lia]).
    subst text. reflexivity.
Qed.

Lemma splitIntoChunks_short_text_witness :
  (0 <= CHUNK_OVERLAP /\ len Scenario.sentence <= CHUNK_SIZE - CHUNK_OVERLAP)
  /\ splitIntoChunks 2 Scenario.sentence CHUNK_SIZE CHUNK_OVERLAP
     = Some (if 50 <? len (trim Scenario.sentence) then [trim Scenario.sentence] else []).
Proof.
  split; [split; vm_compute; discriminate |].
  apply (splitIntoChunks_short_text 2 Scenario.sentence CHUNK_SIZE CHUNK_OVERLAP);
    [vm_compute; discriminate | vm_compute; discriminate | lia].
Defined.

Lemma substring_suffix n s :
  (n <= String.length s)%nat ->
  exists head, s = head ++ substring n (String.length s - n) s
               /\ String.length head = n.
Proof.
  revert n. induction s as [| c s IH]; intros n Hn.
  - exists "". destruct n; simpl in *; [auto | lia].
  - destruct n as [| n].
    + exists "". split; [| reflexivity]. simpl append.
      now rewrite substring0_all by lia.
    + simpl in Hn. destruct (IH n) as [head [E L]]; [lia |].
      exists (String c head). simpl. split; [congruence | lia].
Qed.

(** The tail of a string from position [a] on *)
Lemma slice_tail s a b :
  0 <= a -> a <= len s -> len s <= b ->
  exists head, s = head ++ slice s a b /\ len head = a.
Proof.
  intros Ha Has Hb. unfold slice, relIndex.
  replace (a <? 0) with false by (symmetry; apply Z.ltb_ge; lia).
  replace (b <? 0) with false by (symmetry; apply Z.ltb_ge; lia).
  rewrite (Z.min_l a), (Z.min_r b), (Z.max_l (len s - a)) by lia.
  destruct (substring_suffix (Z.to_nat a) s) as [head [E L]]; [unfold len in *; lia |].
  exists head. unfold len in *.
  replace (Z.to_nat (Z.of_nat (String.length s) - a))
    with (String.length s - Z.to_nat a)%nat by lia.
  split; [exact E | lia].
Qed.

(** X3. A text longer than [chunkSize - overlap] but not longer than
    [chunkSize] is walked in two windows: the first is the whole text,
    and the second is the tail of the text from position
    [chunkSize - overlap] on, which the first one holds already. *)
Theorem walk_repeats_the_tail fuel text chunkSize overlap :
  0 <= overlap -> 2 * overlap <= chunkSize ->
  chunkSize - overlap < len text -> len text <= chunkSize -> (3 <= fuel)%nat ->
  exists head tail,
    text = head ++ tail /\ len head = chunkSize - overlap
    /\ walk fuel text chunkSize overlap 0 [] = Some [trim text; trim tail].
Proof.
  intros Hov Hhalf Hlo Hhi Hfuel.
  destruct (slice_tail text (chunkSize - overlap) (chunkSize - overlap + chunkSize))
    as [head [E L]]; try lia.
  exists head, (slice text (chunkSize - overlap) (chunkSize - overlap + chunkSize)).
  split; [exact E |]. split; [exact L |].
  destruct fuel as [| [| [| fuel]]]; try lia.
  assert (Hend0 : windowEnd text chunkSize 0 = chunkSize).
  { unfold windowEnd. simpl. replace (chunkSize <? len text) with false; [reflexivity |].
    symmetry. apply Z.ltb_ge. lia. }
  assert (Hend1 : windowEnd text chunkSize (chunkSize - overlap)
                  = chunkSize - overlap + chunkSize).
  { unfold windowEnd.
    replace (chunkSize - overlap + chunkSize <? len text) with false; [reflexivity |].
    symmetry. apply Z.ltb_ge. lia. }
  cbn [walk]. replace (0 <? len text) with true by (symmetry; apply Z.ltb_lt; lia).
  unfold nextStart. rewrite Hend0.
  replace (chunkSize - overlap <? len text) with true by (symmetry; apply Z.ltb_lt; lia).
  rewrite Hend1.
  replace (chunkSize - overlap + chunkSize - overlap <? len text) with false
    by (symmetry; apply Z.ltb_ge; lia).
  rewrite slice_whole by lia. reflexivity.
Qed.

Lemma walk_repeats_the_tail_witness :
  (0 <= 4 /\ 2 * 4 <= 10 /\ 10 - 4 < len Scenario.brokenLine
   /\ len Scenario.brokenLine <= 10)
  /\ exists head tail,
       Scenario.brokenLine = head ++ tail /\ len head = 10 - 4
       /\ walk 3 Scenario.brokenLine 10 4 0 [] = Some [trim Scenario.brokenLine; trim tail].
Proof.
  split; [repeat split; vm_compute; discriminate |].
  apply (walk_repeats_the_tail 3 Scenario.brokenLine 10 4);
    try (vm_compute; discriminate); try reflexivity; lia.
Defined.

Lemma nextStart_advance text chunkSize overlap start :
  start + minAdvance chunkSize overlap <= nextStart text chunkSize overlap start.
Proof.
  unfold nextStart, minAdvance.
  destruct (ChunkerProps.windowEnd_bound text chunkSize start) as [E | E];
    Z.div_mod_to_equations; lia.
Qed.

Lemma walk_count text chunkSize overlap fuel :
  1 <= minAdvance chunkSize overlap ->
  forall start chunks out,
    walk fuel text chunkSize overlap start chunks = Some out ->
    (Z.of_nat (List.length out) - Z.of_nat (List.length chunks))
      * minAdvance chunkSize overlap
    < Z.max 0 (len text - start) + minAdvance chunkSize overlap.
Proof.
  intro Hd. induction fuel as [| fuel IH]; intros start chunks out Hw; [discriminate |].
  simpl in Hw. destruct (start <? len text) eqn:E.
  - apply Z.ltb_lt in E. apply IH in Hw.
    rewrite length_app, Nat2Z.inj_add in Hw. simpl (Z.of_nat (List.length [_])) in Hw.
    pose proof (nextStart_advance text chunkSize overlap start) as Hadv.
    replace ((Z.of_nat (List.length out) - (Z.of_nat (List.length chunks) + 1))
             * minAdvance chunkSize overlap)
      with ((Z.of_nat (List.length out) - Z.of_nat (List.length chunks))
            * minAdvance chunkSize overlap - minAdvance chunkSize overlap) in Hw by ring.
    set (m := Z.of_nat (List.length out) - Z.of_nat (List.length chunks)) in *.
    set (d := minAdvance chunkSize overlap) in *.
    destruct (Z_le_gt_dec m 1) as [Hm | Hm].
    + assert (m * d <= d) by nia. lia.
    + assert (2 * d <= m * d) by nia. lia.
  - injection Hw as <-. lia.
Qed.

(** X4. When consecutive window starts are at least one character apart
    ([minAdvance] is positive; it is 802 for the defaults), the number
    of chunks returned is bounded by the length of the text: [n] chunks
    need a text of more than [(n - 1) * minAdvance] characters. *)
Theorem splitIntoChunks_count_bound fuel text chunkSize overlap out :
  1 <= minAdvance chunkSize overlap ->
  splitIntoChunks fuel text chunkSize overlap = Some out ->
  (Z.of_nat (List.length out) - 1) * minAdvance chunkSize overlap < len text.
Proof.
  intro Hd. unfold splitIntoChunks.
  destruct (walk fuel text chunkSize overlap 0 []) as [slices |] eqn:Hw; [| discriminate].
  intros [= <-]. apply (walk_count _ _ _ _ Hd) in Hw. simpl in Hw.
  pose proof (filter_length_le (fun c => 50 <? len c) slices) as Hle.
  unfold dropTiny. pose proof (len_nonneg text).
  set (d := minAdvance chunkSize overlap) in *.
  set (n := Z.of_nat (List.length (filter (fun c => 50 <? len c) slices))).
  assert (Hn : n * d <= Z.of_nat (List.length slices) * d) by (subst n; nia).
  replace ((n - 1) * d) with (n * d - d) by ring.
  rewrite Z.sub_0_r, Z.max_r in Hw by lia. lia.
Qed.

Lemma splitIntoChunks_count_bound_witness :
  minAdvance CHUNK_SIZE CHUNK_OVERLAP = 802
  /\ (Z.of_nat (List.length [Scenario.sentence]) - 1) * minAdvance CHUNK_SIZE CHUNK_OVERLAP
     < len Scenario.sentence.
Proof.
  split; [reflexivity |].
  apply (splitIntoChunks_count_bound 2 Scenario.sentence CHUNK_SIZE CHUNK_OVERLAP
           [Scenario.sentence]); [vm_compute; discriminate | reflexivity].
Defined.

Lemma lastIndexDown_spec pat s i :
  lastIndexDown pat s i = -1
  \/ (0 <= lastIndexDown pat s i <= Z.of_nat i
      /\ occursAt pat s (Z.to_nat (lastIndexDown pat s i)) = true).
Proof.
  induction i as [| i IH]; cbn [lastIndexDown].
  - destruct (occursAt pat s 0) eqn:E; [right | now left]. simpl. split; [lia | exact E].
  - destruct (occursAt pat s (S i)) eqn:E.
    + right. split; [lia |]. now rewrite Nat2Z.id.
    + destruct IH as [IH | [IH1 IH2]]; [now left | right]. split; [lia | exact IH2].
Qed.

(** What [lastIndexOf] finds lies at or before the position asked for,
    and the pattern stands there. *)
Lemma lastIndexOf_spec s pat pos :
  lastIndexOf s pat pos = -1
  \/ (0 <= lastIndexOf s pat pos <= Z.max pos 0
      /\ lastIndexOf s pat pos + len pat <= len s
      /\ occursAt pat s (Z.to_nat (lastIndexOf s pat pos)) = true).
Proof.
  unfold lastIndexOf. destruct (len s <? len pat) eqn:E; [now left |].
  apply Z.ltb_ge in E.
  destruct (lastIndexDown_spec pat s
              (Z.to_nat (Z.min (Z.max pos 0) (len s - len pat)))) as [H | [H1 H2]];
    [now left | right].
  split; [lia |]. split; [lia | exact H2].
Qed.

Lemma occursAt_split pat s i :
  (i <= String.length s)%nat -> occursAt pat s i = true ->
  exists before after, s = before ++ pat ++ after /\ String.length before = i.
Proof.
  intros Hi H. unfold occursAt in H. apply SearchProps.prefix_iff in H.
  destruct H as [after H]. destruct (substring_suffix i s Hi) as [head [E L]].
  exists head, after. split; [congruence | exact L].
Qed.

(** The end of a window that starts at or after 0: the end of a whole
    window, or the end of a boundary marker that stands in the text
    after the middle of the window and starts within it. *)
Lemma breakAt_spec text start chunkSize end_ bps :
  0 <= 2 * start + chunkSize ->
  breakAt text start chunkSize end_ bps = end_
  \/ exists bp lastBreak,
       In bp bps
       /\ breakAt text start chunkSize end_ bps = lastBreak + len bp
       /\ 2 * start + chunkSize < 2 * lastBreak
       /\ lastBreak <= Z.max end_ 0
       /\ lastBreak + len bp <= len text
       /\ occursAt bp text (Z.to_nat lastBreak) = true.
Proof.
  intro Hpos. induction bps as [| bp rest IH]; cbn [breakAt]; [now left |].
  destruct (2 * start + chunkSize <? 2 * lastIndexOf text bp end_) eqn:E.
  - right. apply Z.ltb_lt in E. exists bp, (lastIndexOf text bp end_).
    destruct (lastIndexOf_spec text bp end_) as [H | [H1 [H2 H3]]]; [lia |].
    split; [now left |]. repeat split; try lia. exact H3.
  - destruct IH as [IH | [bp' [lb [Hin H]]]]; [now left | right].
    exists bp', lb. split; [now right | exact H].
Qed.

Lemma substring0_append a b : substring 0 (String.length a) (a ++ b) = a.
Proof. induction a as [| c a IH]; simpl; [now destruct b | congruence]. Qed.

Lemma substring_through n before mid after :
  (n <= String.length before)%nat ->
  substring n (String.length before - n + String.length mid) (before ++ mid ++ after)
  = substring n (String.length before - n) before ++ mid.
Proof.
  revert n. induction before as [| c before IH]; intros n Hn.
  - simpl in Hn. replace n with 0%nat by lia. simpl.
    rewrite substring0_append. reflexivity.
  - destruct n as [| n].
    + specialize (IH 0%nat (Nat.le_0_l _)). rewrite Nat.sub_0_r in *. simpl.
      f_equal. exact IH.
    + simpl in Hn. simpl. apply IH. lia.
Qed.

Lemma length_append (a b : string) :
  String.length (a ++ b) = (String.length a + String.length b)%nat.
Proof. induction a; simpl; congruence. Qed.

Lemma endsWithWhiteSpace_append a b :
  b <> "" -> endsWithWhiteSpace (a ++ b) = endsWithWhiteSpace b.
Proof.
  intro Hb. induction a as [| c a IH]; [reflexivity |].
  simpl. destruct (a ++ b) eqn:E; [| exact IH].
  destruct a; simpl in E; [congruence | discriminate].
Qed.

Lemma trimStart_len s : len (trimStart s) <= len s.
Proof.
  destruct (trimStart_suffix s) as [before E]. rewrite E at 2. rewrite len_append.
  pose proof (len_nonneg before). lia.
Qed.

Lemma trimStart_keeps_end s :
  endsWithWhiteSpace s = true ->
  trimStart s = "" \/ endsWithWhiteSpace (trimStart s) = true.
Proof.
  induction s as [| c s IH]; [discriminate |].
  intro H. cbn [trimStart]. destruct (isWhiteSpace c) eqn:W; [| now right].
  destruct s as [| d s]; [now left |]. apply IH. exact H.
Qed.

Lemma trimEnd_shrinks s : endsWithWhiteSpace s = true -> len (trimEnd s) + 1 <= len s.
Proof.
  unfold len. induction s as [| c s IH]; [discriminate |].
  intro H. cbn [trimEnd]. destruct s as [| d s].
  - simpl in H. rewrite H. simpl. lia.
  - specialize (IH H). destruct (trimEnd (String d s)) as [| e r].
    + destruct (isWhiteSpace c); simpl in *; lia.
    + cbn [String.length] in *. lia.
Qed.

(** Trimming a string that ends with white space removes a character. *)
Lemma trim_shrinks s : endsWithWhiteSpace s = true -> len (trim s) + 1 <= len s.
Proof.
  intro H. unfold trim. pose proof (trimStart_len s).
  destruct (trimStart_keeps_end s H) as [E | E].
  - rewrite E. simpl. destruct s; [discriminate |]. unfold len. simpl. lia.
  - pose proof (trimEnd_shrinks _ E). lia.
Qed.

Lemma trim_len s : len (trim s) <= len s.
Proof. apply isSubstringOf_len, trim_isSubstringOf. Qed.

Lemma substring_length_le n m s : (String.length (substring n m s) <= m)%nat.
Proof.
  revert n m. induction s as [| c s IH]; intros n m.
  - destruct n, m; simpl; lia.
  - destruct n as [| n]; [destruct m as [| m]; simpl; [lia |] | simpl; apply IH].
    specialize (IH 0%nat m). lia.
Qed.

Lemma slice_len s a b : 0 <= a -> 0 <= b -> len (slice s a b) <= Z.max (b - a) 0.
Proof.
  intros Ha Hb. unfold slice, relIndex.
  replace (a <? 0) with false by (symmetry; apply Z.ltb_ge; lia).
  replace (b <? 0) with false by (symmetry; apply Z.ltb_ge; lia).
  pose proof (len_nonneg s).
  match goal with |- len (substring ?n ?m s) <= _ =>
    pose proof (substring_length_le n m s) as H1 end.
  unfold len in *. lia.
Qed.

Lemma breakPoints_end_blank :
  Forall (fun bp => endsWithWhiteSpace bp = true /\ 1 <= len bp <= 2) breakPoints.
Proof. repeat constructor; vm_compute; congruence. Qed.

(** The chunk of the window that starts at [start]: at most
    [chunkSize + 1] characters. A moved end lies at most two characters
    beyond the whole window, and the marker before it ends with white
    space, which trimming removes. *)
Lemma window_chunk_len text chunkSize start :
  0 <= start -> 0 <= chunkSize ->
  len (trim (slice text start (windowEnd text chunkSize start))) <= chunkSize + 1.
Proof.
  intros Hs Hc. unfold windowEnd.
  assert (Hwhole : len (trim (slice text start (start + chunkSize))) <= chunkSize + 1).
  { pose proof (trim_len (slice text start (start + chunkSize))).
    pose proof (slice_len text start (start + chunkSize) Hs ltac:(lia)). lia. }
  destruct (start + chunkSize <? len text) eqn:E; [| exact Hwhole].
  destruct (breakAt_spec text start chunkSize (start + chunkSize) breakPoints)
    as [-> | [bp [lb [Hin [-> [Hmid [Hle [Hfit Hocc]]]]]]]]; [lia | exact Hwhole |].
  pose proof breakPoints_end_blank as Hbps. rewrite Forall_forall in Hbps.
  destruct (Hbps bp Hin) as [Hblank [Hbp1 Hbp2]].
  destruct (occursAt_split bp text (Z.to_nat lb)) as [before [after [Etext Lbefore]]];
    [unfold len in *; lia | exact Hocc |].
  assert (Eslice : slice text start (lb + len bp)
                   = substring (Z.to_nat start) (String.length before - Z.to_nat start)
                       before ++ bp).
  { unfold slice, relIndex.
    replace (start <? 0) with false by (symmetry; apply Z.ltb_ge; lia).
    replace (lb + len bp <? 0) with false by (symmetry; apply Z.ltb_ge; lia).
    rewrite (Z.min_l start), (Z.min_l (lb + len bp)), Z.max_l by lia.
    rewrite Etext at 1.
    replace (Z.to_nat (lb + len bp - start))
      with (String.length before - Z.to_nat start + String.length bp)%nat
      by (unfold len in *; lia).
    apply substring_through. lia. }
  assert (Hbpne : bp <> "") by (intros ->; unfold len in Hbp1; simpl in Hbp1; lia).
  pose proof (trim_shrinks (slice text start (lb + len bp))) as Hshrink.
  rewrite Eslice, endsWithWhiteSpace_append in Hshrink by exact Hbpne.
  specialize (Hshrink Hblank). rewrite <- Eslice in Hshrink.
  pose proof (slice_len text start (lb + len bp) Hs ltac:(lia)). lia.
Qed.

Lemma walk_windows text chunkSize overlap fuel :
  overlap < chunkSize -> 2 * overlap <= chunkSize + 2 ->
  forall start chunks out,
    0 <= start ->
    walk fuel text chunkSize overlap start chunks = Some out ->
    forall c, In c out ->
      In c chunks
      \/ exists a, 0 <= a /\ c = trim (slice text a (windowEnd text chunkSize a)).
Proof.
  intros H1 H2. induction fuel as [| fuel IH]; intros start chunks out Hs Hw c Hc;
    [discriminate |].
  simpl in Hw. destruct (start <? len text).
  - pose proof (ChunkerProps.nextStart_progress text chunkSize overlap start H1 H2).
    assert (Hnext : 0 <= nextStart text chunkSize overlap start) by lia.
    destruct (IH _ _ _ Hnext Hw c Hc) as [Hin | Hex]; [| now right].
    apply in_app_or in Hin. destruct Hin as [Hin | [<- | []]]; [now left |].
    right. exists start. split; [exact Hs | reflexivity].
  - injection Hw as <-. now left.
Qed.

(** X5. For window sizes and overlaps with [0 <= overlap < chunkSize]
    and [2 * overlap <= chunkSize + 2], no chunk is longer than
    [chunkSize + 1] characters. *)
Theorem splitIntoChunks_chunk_length fuel text chunkSize overlap out :
  0 <= overlap -> overlap < chunkSize -> 2 * overlap <= chunkSize + 2 ->
  splitIntoChunks fuel text chunkSize overlap = Some out ->
  forall c, In c out -> len c <= chunkSize + 1.
Proof.
  intros H0 H1 H2. unfold splitIntoChunks.
  destruct (walk fuel text chunkSize overlap 0 []) as [slices |] eqn:Hw; [| discriminate].
  intros [= <-] c Hc. apply ChunkerProps.dropTiny_In in Hc. destruct Hc as [Hc _].
  destruct (walk_windows _ _ _ _ H1 H2 0 [] slices (Z.le_refl 0) Hw c Hc)
    as [[] | [a [Ha ->]]].
  apply window_chunk_len; lia.
Qed.

Lemma splitIntoChunks_chunk_length_witness :
  (0 <= CHUNK_OVERLAP /\ CHUNK_OVERLAP < CHUNK_SIZE
   /\ 2 * CHUNK_OVERLAP <= CHUNK_SIZE + 2)
  /\ splitIntoChunks 2 Scenario.sentence CHUNK_SIZE CHUNK_OVERLAP = Some [Scenario.sentence]
  /\ forall c, In c [Scenario.sentence] -> len c <= CHUNK_SIZE + 1.
Proof.
  split; [unfold CHUNK_SIZE, CHUNK_OVERLAP; lia |]. split; [reflexivity |].
  apply (splitIntoChunks_chunk_length 2 Scenario.sentence CHUNK_SIZE CHUNK_OVERLAP
           [Scenario.sentence]);
    [unfold CHUNK_OVERLAP; lia | unfold CHUNK_SIZE, CHUNK_OVERLAP; lia
     | unfold CHUNK_SIZE, CHUNK_OVERLAP; lia | reflexivity].
Defined.

End ChunkerMore.

(** ** Keywords, chunk types, offsets and page numbers *)
Module ProcessorProps.
Import JsString SearchSpec StringFacts Processor.

Lemma toLowerCase_append a b : toLowerCase (a ++ b) = toLowerCase a ++ toLowerCase b.
Proof. induction a as [| c a IH]; simpl; congruence. Qed.

Lemma lowerChar_idem c : lowerChar (lowerChar c) = lowerChar c.
Proof. destruct c as [[] [] [] [] [] [] [] []]; vm_compute; reflexivity. Qed.

Lemma toLowerCase_idem s : toLowerCase (toLowerCase s) = toLowerCase s.
Proof. induction s as [| c s IH]; simpl; [reflexivity |]. now rewrite lowerChar_idem, IH. Qed.

Lemma isSubstringOf_toLowerCase a b :
  isSubstringOf a b -> isSubstringOf (toLowerCase a) (toLowerCase b).
Proof.
  intros [p [q ->]]. exists (toLowerCase p), (toLowerCase q).
  now rewrite !toLowerCase_append.
Qed.

(** A piece of a lower-cased text is lower-cased. *)
Lemma lowerCased_piece k s : isSubstringOf k (toLowerCase s) -> toLowerCase k = k.
Proof.
  intros [p [q E]].
  assert (H : toLowerCase (p ++ k ++ q) = p ++ k ++ q)
    by (rewrite <- E; apply toLowerCase_idem).
  rewrite !toLowerCase_append in H.
  assert (Hlen : forall x, String.length (toLowerCase x) = String.length x)
    by (induction x; simpl; congruence).
  assert (Hcut : forall x x' y y', String.length x = String.length x' ->
                                   x ++ y = x' ++ y' -> y = y').
  { induction x as [| c x IHx]; destruct x' as [| c' x']; simpl; intros; try discriminate.
    - assumption.
    - injection H1 as _ H1. apply (IHx x'); [lia | assumption]. }
  apply Hcut in H; [| apply Hlen].
  assert (Hhead : forall x x' y y', String.length x = String.length x' ->
                                    x ++ y = x' ++ y' -> x = x').
  { induction x as [| c x IHx]; destruct x' as [| c' x']; simpl; intros; try discriminate.
    - reflexivity.
    - injection H1 as -> H1. f_equal. apply (IHx x' y y'); [lia | assumption]. }
  apply Hhead in H; [exact H | apply Hlen].
Qed.

Lemma filter_terms_In (terms : list string) lowerText k :
  In k (filter (fun term => includes lowerText term) terms)
  <-> In k terms /\ isSubstringOf k lowerText.
Proof. now rewrite filter_In, SearchProps.includes_iff. Qed.

Lemma extractKeywords_In text k :
  In k (extractKeywords text)
  <-> In k constructionTerms /\ isSubstringOf k (toLowerCase text).
Proof. exact (filter_terms_In constructionTerms (toLowerCase text) k). Qed.

(** X6. Every keyword [extractKeywords] returns is a term of the list
    that occurs in the lower-cased text, so it is lower-cased itself:
    the term [HVAC], spelled in capitals in the list, is returned for no
    text. *)
Theorem extractKeywords_lower_case text :
  Forall (fun k => In k constructionTerms
                   /\ isSubstringOf k (toLowerCase text)
                   /\ toLowerCase k = k /\ k <> "HVAC")
         (extractKeywords text).
Proof.
  apply Forall_forall. intros k Hk. apply extractKeywords_In in Hk.
  destruct Hk as [Hin Hsub].
  pose proof (lowerCased_piece k text Hsub) as Hlow.
  split; [exact Hin |]. split; [exact Hsub |]. split; [exact Hlow |].
  intro E. rewrite E in Hlow. clear - Hlow. vm_compute in Hlow. discriminate Hlow.
Qed.

(** X7. The keywords of a chunk are keywords of the document: whenever
    [splitIntoChunks] returns, every keyword extracted from a chunk is
    extracted from the whole text too. *)
Theorem chunk_keywords_are_document_keywords fuel text chunkSize overlap out :
  Chunker.splitIntoChunks fuel text chunkSize overlap = Some out ->
  forall c k, In c out -> In k (extractKeywords c) -> In k (extractKeywords text).
Proof.
  intros Hs c k Hc Hk. apply extractKeywords_In in Hk. destruct Hk as [Hterm Hsub].
  apply extractKeywords_In. split; [exact Hterm |].
  eapply isSubstringOf_trans; [exact Hsub |].
  apply isSubstringOf_toLowerCase.
  exact (ChunkerMore.chunk_isSubstringOf _ _ _ _ _ _ Hs Hc).
Qed.

Lemma chunk_keywords_are_document_keywords_witness :
  Chunker.splitIntoChunks 2 Scenario.sentence Chunker.CHUNK_SIZE Chunker.CHUNK_OVERLAP
  = Some [Scenario.sentence]
  /\ extractKeywords Scenario.sentence = ["concrete"; "psi"; "strength"]
  /\ forall c k, In c [Scenario.sentence] -> In k (extractKeywords c) ->
                 In k (extractKeywords Scenario.sentence).
Proof.
  split; [reflexivity |]. split; [reflexivity |].
  apply (chunk_keywords_are_document_keywords 2 Scenario.sentence
           Chunker.CHUNK_SIZE Chunker.CHUNK_OVERLAP [Scenario.sentence]).
  reflexivity.
Defined.

(** X8. A text with one of the keywords schedule, milestone, duration or
    critical path is typed schedule, whatever else it holds; a text with
    the keyword specification or requirement is typed schedule or
    specification. *)
Theorem detectChunkType_follows_keywords text k :
  In k (extractKeywords text) ->
  (In k ["schedule"; "milestone"; "duration"; "critical path"] ->
   detectChunkType text = "schedule")
  /\ (In k ["specification"; "requirement"] ->
      detectChunkType text = "schedule" \/ detectChunkType text = "specification").
Proof.
  intro Hk. apply extractKeywords_In in Hk. destruct Hk as [_ Hinc].
  apply SearchProps.includes_iff in Hinc.
  unfold detectChunkType. split; intro Hin.
  - replace (testWords _ text) with true; [reflexivity |].
    symmetry. apply existsb_exists. exists k. split; [| exact Hinc].
    simpl in *. tauto.
  - destruct (testWords ["schedule"; _; _; _; _; _] text); [now left | right].
    replace (testWords _ text) with true; [reflexivity |].
    symmetry. apply existsb_exists. exists k. split; [| exact Hinc].
    simpl in *. tauto.
Qed.

Lemma detectChunkType_follows_keywords_witness :
  In "milestone" (extractKeywords "4000 psi at the first MILESTONE")
  /\ detectChunkType "4000 psi at the first MILESTONE" = "schedule".
Proof.
  split; [vm_compute; tauto |].
  apply (detectChunkType_follows_keywords "4000 psi at the first MILESTONE" "milestone");
    vm_compute; tauto.
Defined.

Lemma indexOfAt_found pat s :
  forall k, indexOfAt pat s k <> -1 ->
    exists before after,
      s = before ++ pat ++ after
      /\ indexOfAt pat s k = Z.of_nat k + len before.
Proof.
  induction s as [| c s IH]; intros k H; cbn [indexOfAt] in *.
  - destruct (prefix pat "") eqn:E; [| congruence].
    apply SearchProps.prefix_iff in E. destruct E as [after E].
    exists "", after. split; [exact E | unfold len; cbn [String.length]; lia].
  - destruct (prefix pat (String c s)) eqn:E.
    + apply SearchProps.prefix_iff in E. destruct E as [after E].
      exists "", after. split; [exact E | unfold len; cbn [String.length]; lia].
    + destruct (IH (S k) H) as [before [after [Es Ei]]].
      exists (String c before), after. split; [simpl; congruence |].
      rewrite Ei. unfold len. cbn [String.length]. lia.
Qed.

Lemma indexOfAt_complete pat s :
  isSubstringOf pat s -> forall k, indexOfAt pat s k <> -1.
Proof.
  induction s as [| c s IH]; intros Hsub k; cbn [indexOfAt].
  - destruct Hsub as [[| ? ?] [after E]]; [| discriminate].
    replace (prefix pat "") with true; [lia |].
    symmetry. apply SearchProps.prefix_iff. now exists after.
  - destruct (prefix pat (String c s)) eqn:E; [lia |].
    apply IH. destruct Hsub as [[| c' before] [after Es]].
    + exfalso. assert (prefix pat (String c s) = true); [| congruence].
      apply SearchProps.prefix_iff. now exists after.
    + exists before, after. simpl in Es. congruence.
Qed.

Lemma substring_none n s : (String.length s <= n)%nat -> substring n 0 s = "".
Proof.
  revert n. induction s as [| c s IH]; intros n Hn; [now destruct n |].
  destruct n as [| n]; simpl in *; [lia | apply IH; lia].
Qed.

(** Where [indexOf] finds a piece of a text, the piece stands. *)
Lemma indexOf_slice text piece :
  isSubstringOf piece text ->
  0 <= indexOf text piece
  /\ indexOf text piece + len piece <= len text
  /\ slice text (indexOf text piece) (indexOf text piece + len piece) = piece.
Proof.
  intro Hsub. unfold indexOf.
  destruct (indexOfAt_found piece text 0 (indexOfAt_complete _ _ Hsub 0))
    as [before [after [E Ei]]].
  rewrite Ei. simpl Z.of_nat. rewrite Z.add_0_l.
  pose proof (len_nonneg before). pose proof (len_nonneg piece).
  pose proof (len_nonneg after).
  assert (Hlen : len text = len before + len piece + len after)
    by (rewrite E, !len_append; lia).
  split; [lia |]. split; [lia |].
  unfold slice, relIndex.
  replace (len before <? 0) with false by (symmetry; apply Z.ltb_ge; lia).
  replace (len before + len piece <? 0) with false by (symmetry; apply Z.ltb_ge; lia).
  rewrite !Z.min_l, Z.max_l by lia. rewrite E.
  replace (Z.to_nat (len before + len piece - len before))
    with (String.length before - Z.to_nat (len before) + String.length piece)%nat
    by (unfold len; lia).
  rewrite ChunkerMore.substring_through by (unfold len; lia).
  replace (String.length before - Z.to_nat (len before))%nat with 0%nat
    by (unfold len; lia).
  rewrite substring_none by (unfold len; lia). reflexivity.
Qed.

Lemma mapWithIndex_spec {A B} (f : A -> Z -> B) (g : B -> A) (h : B -> Z) (l : list A) :
  (forall x i, g (f x i) = x) -> (forall x i, h (f x i) = i) ->
  forall index,
    map g (mapWithIndex f l index) = l
    /\ map h (mapWithIndex f l index)
       = map (fun n => index + Z.of_nat n) (seq 0 (List.length l)).
Proof.
  intros Hg Hh. induction l as [| x l IH]; intro index; [now split |].
  destruct (IH (index + 1)) as [IH1 IH2]. cbn [mapWithIndex map List.length seq].
  rewrite Hg, Hh, IH1, IH2. split; [reflexivity |]. f_equal; [simpl; lia |].
  rewrite <- seq_shift, map_map. apply map_ext. intro n. lia.
Qed.

Lemma mapWithIndex_In {A B} (f : A -> Z -> B) (l : list A) :
  forall index y, In y (mapWithIndex f l index) -> exists x i, In x l /\ y = f x i.
Proof.
  induction l as [| x l IH]; intros index y Hy; [destruct Hy |].
  destruct Hy as [<- | Hy]; [exists x, index; split; [now left | reflexivity] |].
  destruct (IH _ _ Hy) as [x' [i [Hin E]]]. exists x', i. split; [now right | exact E].
Qed.

(** X9. The chunk records built from the chunks of a text: they hold the
    chunks in order under the indices 0, 1, 2, ..., carry the document
    and user ids given, and the offsets of every record delimit its
    content in the text: [text.slice(startOffset, endOffset)] is the
    content. *)
Theorem chunkRecords_offsets fuel text chunkSize overlap out docId user pageCount
    sections :
  Chunker.splitIntoChunks fuel text chunkSize overlap = Some out ->
  map chunkContent (chunkRecords docId user text pageCount sections out) = out
  /\ map chunkIndex (chunkRecords docId user text pageCount sections out)
     = map Z.of_nat (seq 0 (List.length out))
  /\ Forall (fun r => documentId r = docId /\ userId r = user
                      /\ 0 <= startOffset r /\ endOffset r <= len text
                      /\ slice text (startOffset r) (endOffset r) = chunkContent r)
            (chunkRecords docId user text pageCount sections out).
Proof.
  intro Hs. unfold chunkRecords.
  destruct (mapWithIndex_spec (toChunkRecord docId user text pageCount sections)
              chunkContent chunkIndex out (fun _ _ => eq_refl) (fun _ _ => eq_refl) 0)
    as [E1 E2].
  split; [exact E1 |]. split; [exact E2 |].
  apply Forall_forall. intros r Hr. apply mapWithIndex_In in Hr.
  destruct Hr as [c [i [Hc ->]]]. cbn [toChunkRecord documentId userId startOffset
                                       endOffset chunkContent].
  pose proof (indexOf_slice text c (ChunkerMore.chunk_isSubstringOf _ _ _ _ _ _ Hs Hc)).
  tauto.
Qed.

Lemma chunkRecords_offsets_witness :
  Chunker.splitIntoChunks 2 Scenario.sentence Chunker.CHUNK_SIZE Chunker.CHUNK_OVERLAP
  = Some [Scenario.sentence]
  /\ map chunkContent (chunkRecords 7 1 Scenario.sentence None [] [Scenario.sentence])
     = [Scenario.sentence]
  /\ map chunkIndex (chunkRecords 7 1 Scenario.sentence None [] [Scenario.sentence])
     = map Z.of_nat (seq 0 (List.length [Scenario.sentence]))
  /\ Forall (fun r => documentId r = 7 /\ userId r = 1
                      /\ 0 <= startOffset r /\ endOffset r <= len Scenario.sentence
                      /\ slice Scenario.sentence (startOffset r) (endOffset r)
                         = chunkContent r)
            (chunkRecords 7 1 Scenario.sentence None [] [Scenario.sentence]).
Proof.
  split; [reflexivity |].
  apply (chunkRecords_offsets 2 Scenario.sentence Chunker.CHUNK_SIZE
           Chunker.CHUNK_OVERLAP [Scenario.sentence] 7 1 None []).
  reflexivity.
Defined.

(** X10. The page of position 0: whenever the page count is a number
    other than 0 and [NaN] and the characters per page come out
    positive, [estimatePageNumber] puts position 0 on page 0. *)
Theorem estimatePageNumber_at_start totalChars totalPages :
  JsNumber.truthy totalPages = true ->
  (0 <? totalChars / totalPages)%float = true ->
  estimatePageNumber 0 totalChars totalPages = 0%float.
Proof.
  intros Ht Hpos. unfold estimatePageNumber. rewrite Ht. cbn [negb].
  set (c := (totalChars / totalPages)%float) in *.
  rewrite FloatAxioms.ltb_spec in Hpos.
  assert (E : Prim2SF (0 / c) = S754_zero false).
  { rewrite FloatAxioms.div_spec.
    change (Prim2SF 0) with (S754_zero false) in *.
    destruct (Prim2SF c) as [[] | [] | | [] m e]; try discriminate Hpos; reflexivity. }
  unfold JsMath.ceil. rewrite E. apply FloatAxioms.Prim2SF_inj. rewrite E. reflexivity.
Qed.

Lemma estimatePageNumber_at_start_witness :
  (JsNumber.truthy 3 = true /\ (0 <? 9000 / 3)%float = true)
  /\ estimatePageNumber 0 9000 3 = 0%float.
Proof.
  split; [split; reflexivity |].
  apply (estimatePageNumber_at_start 9000 3); reflexivity.
Defined.

End ProcessorProps.

(** ** More on the store and the router *)
Module DbMore.

Lemma insertBy_Permutation {A} (leb : A -> A -> bool) (x : A) (l : list A) :
  Permutation (Db.insertBy leb x l) (x :: l).
Proof.
  induction l as [| y l IH]; simpl; [reflexivity |].
  destruct (leb x y); [reflexivity |].
  rewrite IH. apply perm_swap.
Qed.

(** [ORDER BY] permutes the rows. *)
Lemma orderBy_Permutation {A} (leb : A -> A -> bool) (l : list A) :
  Permutation (Db.orderBy leb l) l.
Proof.
  unfold Db.orderBy. induction l as [| x l IH]; simpl; [reflexivity |].
  rewrite insertBy_Permutation. now constructor.
Qed.

Lemma insertBy_HdRel {A} (leb : A -> A -> bool) (x y : A) (l : list A) :
  leb y x = true -> HdRel (fun a b => leb a b = true) y l ->
  HdRel (fun a b => leb a b = true) y (Db.insertBy leb x l).
Proof.
  intros Hyx Hl. destruct l as [| z l]; simpl; [now constructor |].
  destruct (leb x z); constructor; [exact Hyx | now inversion Hl].
Qed.

(** [ORDER BY] under a total comparison leaves every row before its
    successor. *)
Lemma orderBy_Sorted {A} (leb : A -> A -> bool) (l : list A) :
  (forall x y, leb x y = false -> leb y x = true) ->
  Sorted (fun a b => leb a b = true) (Db.orderBy leb l).
Proof.
  intro Htotal. unfold Db.orderBy. induction l as [| x l IH]; simpl; [constructor |].
  revert IH. generalize (fold_right (Db.insertBy leb) [] l). clear l.
  intros l Hl. induction l as [| y l IHl]; simpl.
  - repeat constructor.
  - destruct (leb x y) eqn:E.
    + constructor; [exact Hl | now constructor].
    + inversion Hl as [| ? ? Hl' Hhd]; subst. constructor; [now apply IHl |].
      apply insertBy_HdRel; [now apply Htotal | exact Hhd].
Qed.

(** X11. [getDocumentsByUserId] returns the rows of the user, each once
    and no other row, the newest first; without a database it returns
    nothing. *)
Theorem getDocumentsByUserId_contract (t : Db.Tables) (userId : Z) :
  Permutation (Db.getDocumentsByUserId (Some t) userId)
              (filter (fun d => Document.userId d =? userId) (Db.documents t))
  /\ Forall (fun d => In d (Db.documents t) /\ Document.userId d = userId)
            (Db.getDocumentsByUserId (Some t) userId)
  /\ Sorted (fun a b => Document.createdAt b <= Document.createdAt a)
            (Db.getDocumentsByUserId (Some t) userId)
  /\ Db.getDocumentsByUserId None userId = [].
Proof.
  split; [apply orderBy_Permutation |]. split; [| split; [| reflexivity]].
  - apply Forall_forall. intros d Hd. now apply DbProps.getDocumentsByUserId_In.
  - unfold Db.getDocumentsByUserId.
    eapply Sorted_ind with (P := fun l => Sorted _ l);
      [constructor | | apply (orderBy_Sorted Db.newestFirst)].
    + intros a l _ IH Hhd. constructor; [exact IH |].
      destruct Hhd; constructor. unfold Db.newestFirst in *. now apply Z.leb_le.
    + intros x y. unfold Db.newestFirst. rewrite Z.leb_gt, Z.leb_le. lia.
Qed.

Lemma getDocumentById_owned_aux (t : Db.Tables) (id userId : Z) :
  match Db.getDocumentById (Some t) id userId with
  | Some d => In d (Db.documents t) /\ Document.id d = id /\ Document.userId d = userId
  | None => Forall (fun d => Document.id d <> id \/ Document.userId d <> userId)
                   (Db.documents t)
  end.
Proof.
  unfold Db.getDocumentById.
  set (hit := fun d => (Document.id d =? id) && (Document.userId d =? userId)).
  destruct (filter hit (Db.documents t)) as [| d l] eqn:E; cbn [hd_error].
  - apply Forall_forall. intros d Hd.
    destruct (hit d) eqn:Hhit.
    + assert (Hin : In d (filter hit (Db.documents t))) by (apply filter_In; auto).
      rewrite E in Hin. destruct Hin.
    + unfold hit in Hhit. apply andb_false_iff in Hhit.
      rewrite !Z.eqb_neq in Hhit. exact Hhit.
  - assert (Hin : In d (filter hit (Db.documents t))) by (rewrite E; now left).
    apply filter_In in Hin. destruct Hin as [Hin Hhit]. unfold hit in Hhit.
    apply andb_true_iff in Hhit. rewrite !Z.eqb_eq in Hhit. tauto.
Qed.

(** X12. [getDocumentById] answers with a row of the table that has the
    id asked for and belongs to the caller, and it answers with nothing
    exactly when the table holds no such row: a document of another user
    is never returned. *)
Theorem getDocumentById_contract (t : Db.Tables) (id userId : Z) :
  match Db.getDocumentById (Some t) id userId with
  | Some d => In d (Db.documents t) /\ Document.id d = id /\ Document.userId d = userId
  | None => Forall (fun d => Document.id d <> id \/ Document.userId d <> userId)
                   (Db.documents t)
  end.
Proof. exact (getDocumentById_owned_aux t id userId). Qed.

Lemma filter_nil_iff {A} (f : A -> bool) (l : list A) :
  filter f l = [] <-> forall x, In x l -> f x = false.
Proof.
  induction l as [| y l IH]; simpl; [tauto |].
  destruct (f y) eqn:E.
  - split; [discriminate |]. intro H. specialize (H y (or_introl eq_refl)). congruence.
  - rewrite IH. split; [intros H x [<- | Hx]; auto | auto].
Qed.

(** X13. [deleteDocument] followed by the lookups. The call reports
    whether the caller owned a document with the id; afterwards the
    caller finds no document under the id and the document has no chunk
    left, whoever owned it; the rows that remain are the documents other
    than the caller's document with the id, and the chunks of the other
    documents; conversations, messages and reports are untouched. *)
Theorem deleteDocument_then_lookup (t : Db.Tables) (id userId : Z) :
  exists t',
    Db.deleteDocument (Some t) id userId
    = (Some t', match Db.getDocumentById (Some t) id userId with
                | Some _ => true
                | None => false
                end)
    /\ Db.getDocumentById (Some t') id userId = None
    /\ Db.getChunksByDocumentId (Some t') id = []
    /\ (forall d, In d (Db.documents t')
                  <-> In d (Db.documents t)
                      /\ (Document.id d <> id \/ Document.userId d <> userId))
    /\ (forall c, In c (Db.documentChunks t')
                  <-> In c (Db.documentChunks t) /\ DocumentChunk.documentId c <> id)
    /\ Db.conversations t' = Db.conversations t
    /\ Db.messages t' = Db.messages t
    /\ Db.reports t' = Db.reports t.
Proof.
  unfold Db.deleteDocument, Db.getDocumentById. cbv zeta.
  set (hit := fun d => (Document.id d =? id) && (Document.userId d =? userId)).
  exists (Db.mkTables (filter (fun d => negb (hit d)) (Db.documents t))
            (filter (fun c => negb (DocumentChunk.documentId c =? id))
                    (Db.documentChunks t))
            (Db.conversations t) (Db.messages t) (Db.reports t)).
  split; [| split; [| split; [| split; [| split; [| repeat split]]]]].
  - f_equal. destruct (filter hit (Db.documents t)); reflexivity.
  - cbn [Db.documents]. replace (filter hit (filter _ (Db.documents t))) with (@nil Document.t);
      [reflexivity |].
    symmetry. apply filter_nil_iff. intros d Hd. apply filter_In in Hd.
    destruct Hd as [_ Hd]. now apply negb_true_iff in Hd.
  - unfold Db.getChunksByDocumentId. cbn [Db.documentChunks].
    replace (filter _ (filter _ (Db.documentChunks t))) with (@nil DocumentChunk.t);
      [reflexivity |].
    symmetry. apply filter_nil_iff. intros c Hc. apply filter_In in Hc.
    destruct Hc as [_ Hc]. now apply negb_true_iff in Hc.
  - intro d. cbn [Db.documents]. rewrite filter_In. unfold hit.
    rewrite negb_true_iff, andb_false_iff, !Z.eqb_neq. tauto.
  - intro c. cbn [Db.documentChunks]. rewrite filter_In.
    rewrite negb_true_iff, Z.eqb_neq. tauto.
Qed.

(** X14. [deleteConversation] for every caller: the call reports whether
    the caller owned a conversation with the id; afterwards no message
    of the conversation is left, whoever owned it, and the conversations
    that remain are those other than the caller's conversation with the
    id; documents, chunks and reports are untouched. *)
Theorem deleteConversation_effect (t : Db.Tables) (id userId : Z) :
  exists t',
    Db.deleteConversation (Some t) id userId
    = (Some t',
       existsb (fun c => (Conversation.id c =? id) && (Conversation.userId c =? userId))
               (Db.conversations t))
    /\ (forall m, In m (Db.messages t')
                  <-> In m (Db.messages t) /\ MessageRow.conversationId m <> id)
    /\ (forall c, In c (Db.conversations t')
                  <-> In c (Db.conversations t)
                      /\ (Conversation.id c <> id \/ Conversation.userId c <> userId))
    /\ Db.documents t' = Db.documents t
    /\ Db.documentChunks t' = Db.documentChunks t
    /\ Db.reports t' = Db.reports t.
Proof.
  unfold Db.deleteConversation. cbv zeta.
  set (hit := fun c => (Conversation.id c =? id) && (Conversation.userId c =? userId)).
  exists (Db.mkTables (Db.documents t) (Db.documentChunks t)
            (filter (fun c => negb (hit c)) (Db.conversations t))
            (filter (fun m => negb (MessageRow.conversationId m =? id)) (Db.messages t))
            (Db.reports t)).
  split; [| split; [| split; [| repeat split]]].
  - f_equal. induction (Db.conversations t) as [| c l IH]; [reflexivity |].
    simpl. destruct (hit c); [reflexivity | exact IH].
  - intro m. cbn [Db.messages]. rewrite filter_In, negb_true_iff, Z.eqb_neq. tauto.
  - intro c. cbn [Db.conversations]. rewrite filter_In. unfold hit.
    rewrite negb_true_iff, andb_false_iff, !Z.eqb_neq. tauto.
Qed.

(** X15. [getChunksByUserDocuments] returns chunks of the user only,
    ordered by document id and then by chunk index. A list of document
    ids that is not empty restricts the result to those documents; an
    empty list restricts nothing and gives the same result as no list. *)
Theorem getChunksByUserDocuments_contract (t : Db.Tables) (userId : Z)
    (documentIds : option (list Z)) :
  Forall (fun c => In c (Db.documentChunks t) /\ DocumentChunk.userId c = userId
                   /\ match documentIds with
                      | Some (i :: ids) => In (DocumentChunk.documentId c) (i :: ids)
                      | _ => True
                      end)
         (Db.getChunksByUserDocuments (Some t) userId documentIds)
  /\ Sorted (fun a b =>
               DocumentChunk.documentId a < DocumentChunk.documentId b
               \/ (DocumentChunk.documentId a = DocumentChunk.documentId b
                   /\ DocumentChunk.chunkIndex a <= DocumentChunk.chunkIndex b))
            (Db.getChunksByUserDocuments (Some t) userId documentIds)
  /\ Db.getChunksByUserDocuments (Some t) userId (Some [])
     = Db.getChunksByUserDocuments (Some t) userId None.
Proof.
  assert (Hsorted : forall l,
             Sorted (fun a b =>
               DocumentChunk.documentId a < DocumentChunk.documentId b
               \/ (DocumentChunk.documentId a = DocumentChunk.documentId b
                   /\ DocumentChunk.chunkIndex a <= DocumentChunk.chunkIndex b))
               (Db.orderBy Db.byDocumentThenIndex l)).
  { intro l.
    eapply Sorted_ind with (P := fun l => Sorted _ l);
      [constructor | | apply (orderBy_Sorted Db.byDocumentThenIndex)].
    - intros a l' _ IH Hhd. constructor; [exact IH |].
      destruct Hhd as [| b l'' Hab]; constructor. unfold Db.byDocumentThenIndex in Hab.
      apply orb_true_iff in Hab. rewrite andb_true_iff, Z.ltb_lt, Z.eqb_eq, Z.leb_le in Hab.
      exact Hab.
    - intros x y. unfold Db.byDocumentThenIndex.
      rewrite orb_false_iff, orb_true_iff, andb_false_iff, andb_true_iff.
      rewrite !Z.ltb_ge, !Z.ltb_lt, !Z.eqb_eq, !Z.eqb_neq, Z.leb_gt, Z.leb_le. lia. }
  split; [| split; [| reflexivity]].
  - apply Forall_forall. intros c Hc. unfold Db.getChunksByUserDocuments in Hc.
    destruct documentIds as [[| i ids] |];
      apply DbProps.orderBy_In in Hc; apply filter_In in Hc; destruct Hc as [Hin Hc].
    + apply Z.eqb_eq in Hc. tauto.
    + apply andb_true_iff in Hc. destruct Hc as [Hu Hd]. apply Z.eqb_eq in Hu.
      apply existsb_exists in Hd. destruct Hd as [j [Hj E]]. apply Z.eqb_eq in E.
      subst j. tauto.
    + apply Z.eqb_eq in Hc. tauto.
  - unfold Db.getChunksByUserDocuments. destruct documentIds as [[| i ids] |]; apply Hsorted.
Qed.

(** X16. [documents.getChunks] returns chunks only for a document the
    caller owns: every chunk returned belongs to the document asked for,
    which the caller finds under its id, and for a document the caller
    does not own the result is empty. *)
Theorem getChunks_guarded (db : Db.Connection) (userId documentId : Z) :
  match Db.getDocumentById db documentId userId with
  | Some d =>
      Document.userId d = userId /\ Document.id d = documentId
      /\ Forall (fun c => DocumentChunk.documentId c = documentId)
                (Router.getChunks db userId documentId)
  | None => Router.getChunks db userId documentId = []
  end.
Proof.
  unfold Router.getChunks. destruct db as [t |]; [| reflexivity].
  pose proof (getDocumentById_owned_aux t documentId userId) as H.
  destruct (Db.getDocumentById (Some t) documentId userId) as [d |]; [| reflexivity].
  destruct H as [_ [H1 H2]]. split; [exact H2 |]. split; [exact H1 |].
  apply Forall_forall. intros c Hc. unfold Db.getChunksByDocumentId in Hc.
  apply DbProps.orderBy_In in Hc. apply filter_In in Hc. now apply Z.eqb_eq.
Qed.

End DbMore.

(** ** Titles, citations and where they come from *)
Module SearchMore.
Import JsString SearchSpec StringFacts.

Lemma substring0_length n s :
  String.length (substring 0 n s) = Nat.min n (String.length s).
Proof.
  revert n. induction s as [| c s IH]; intro n; [now destruct n |].
  destruct n as [| n]; simpl; [reflexivity | now rewrite IH].
Qed.

Lemma substring0_len s n : 0 <= n -> len (substring0 s n) = Z.min n (len s).
Proof.
  intro Hn. unfold substring0, len. rewrite substring0_length.
  pose proof (Nat2Z.is_nonneg (String.length s)). lia.
Qed.

(** X17. The title derived from a message has at most 50 characters: a
    message of at most 50 characters is its own title, and a longer one
    gives its first 47 characters followed by three dots. *)
Theorem titleOf_bounded (message : string) :
  len (Router.titleOf message) <= 50
  /\ (len message <= 50 -> Router.titleOf message = message)
  /\ (50 < len message ->
      len (Router.titleOf message) = 50
      /\ exists rest, message = substring0 message 47 ++ rest
                      /\ Router.titleOf message = substring0 message 47 ++ "...").
Proof.
  unfold Router.titleOf. destruct (50 <? len message) eqn:E.
  - apply Z.ltb_lt in E.
    assert (L : len (substring0 message 47 ++ "...") = 50).
    { rewrite len_append, substring0_len by lia. rewrite Z.min_l by lia. reflexivity. }
    split; [lia |]. split; [lia |]. intros _. split; [exact L |].
    destruct (substring0_prefix (Z.to_nat (Z.min (Z.max 47 0) (len message))) message)
      as [rest Hrest].
    exists rest. split; [exact Hrest | reflexivity].
  - apply Z.ltb_ge in E. split; [exact E |]. split; [reflexivity | lia].
Qed.

Lemma In_firstn {A} (n : nat) (l : list A) (x : A) : In x (firstn n l) -> In x l.
Proof.
  revert l. induction n as [| n IH]; intros [| y l] H; simpl in *; try tauto.
  destruct H as [-> | H]; [now left | right; now apply IH].
Qed.

(** X18. Where the hits of [searchDocuments] come from: every hit is the
    content of a chunk row of the user, and its citation names a
    document row of the same user with the document id of the chunk,
    under the original name of that row (or "Unknown Document" when the
    name is empty), with the page number and the section title of the
    chunk. *)
Theorem searchDocuments_provenance (t : Db.Tables) (userId : Z) (query : string)
    (documentTypes : option (list string)) :
  Forall (fun hit =>
            exists chunk d,
              In chunk (Db.documentChunks t) /\ DocumentChunk.userId chunk = userId
              /\ In d (Db.documents t) /\ Document.userId d = userId
              /\ Document.id d = DocumentChunk.documentId chunk
              /\ Search.content hit = DocumentChunk.content chunk
              /\ Citation.documentId (Search.citation hit) = Document.id d
              /\ Citation.documentName (Search.citation hit)
                 = (if String.eqb (Document.originalName d) "" then "Unknown Document"
                    else Document.originalName d)
              /\ Citation.pageNumber (Search.citation hit) = DocumentChunk.pageNumber chunk
              /\ Citation.section (Search.citation hit) = DocumentChunk.sectionTitle chunk)
         (Search.searchDocuments (Some t) userId query documentTypes).
Proof.
  apply Forall_forall. intros hit Hhit.
  unfold Search.searchDocuments, Search.matchingChunks, Search.matchingAll in Hhit.
  apply in_map_iff in Hhit. destruct Hhit as [chunk [<- Hchunk]].
  apply In_firstn in Hchunk. apply filter_In in Hchunk. destruct Hchunk as [Hstored Hmatch].
  apply DbProps.getChunksByUserDocuments_In in Hstored. destruct Hstored as [Hc Hu].
  unfold Search.chunkMatches in Hmatch.
  destruct (existsb _ _) eqn:Hrel in Hmatch; [| discriminate].
  apply existsb_exists in Hrel. destruct Hrel as [i [Hi Ei]]. apply Z.eqb_eq in Ei.
  apply in_map_iff in Hi. destruct Hi as [d0 [Hid0 Hd0]].
  apply SearchProps.relevantDocs_In in Hd0. destruct Hd0 as [Hd0 _].
  unfold Search.toHit, Search.citationOf. cbn [Search.content Search.citation].
  destruct (find _ (Db.getDocumentsByUserId (Some t) userId)) as [d |] eqn:Hfind.
  - apply find_some in Hfind. destruct Hfind as [Hd Hid]. apply Z.eqb_eq in Hid.
    apply DbProps.getDocumentsByUserId_In in Hd. destruct Hd as [Hd Hdu].
    exists chunk, d. cbn. repeat split; auto.
  - exfalso. apply (find_none _ _ Hfind) in Hd0. apply Z.eqb_neq in Hd0. congruence.
Qed.

(** X19. The excerpt of a citation: the content of the chunk when it has
    at most 200 characters, else its first 200 characters followed by
    three dots; it is never longer than 203 characters. *)
Theorem citation_excerpt_bounded (documents : list Document.t) (chunk : DocumentChunk.t) :
  len (Citation.excerpt (Search.citationOf documents chunk)) <= 203
  /\ (len (DocumentChunk.content chunk) <= 200 ->
      Citation.excerpt (Search.citationOf documents chunk) = DocumentChunk.content chunk)
  /\ (200 < len (DocumentChunk.content chunk) ->
      len (Citation.excerpt (Search.citationOf documents chunk)) = 203
      /\ exists rest,
           DocumentChunk.content chunk = substring0 (DocumentChunk.content chunk) 200 ++ rest
           /\ Citation.excerpt (Search.citationOf documents chunk)
              = substring0 (DocumentChunk.content chunk) 200 ++ "...").
Proof.
  unfold Search.citationOf. cbn [Citation.excerpt].
  set (text := DocumentChunk.content chunk).
  pose proof (len_nonneg text).
  destruct (200 <? len text) eqn:E.
  - apply Z.ltb_lt in E.
    assert (L : len (substring0 text 200 ++ "...") = 203).
    { rewrite len_append, substring0_len by lia. rewrite Z.min_l by lia. reflexivity. }
    split; [lia |]. split; [lia |]. intros _. split; [exact L |].
    destruct (substring0_prefix (Z.to_nat (Z.min (Z.max 200 0) (len text))) text)
      as [rest Hrest].
    exists rest. split; [exact Hrest | reflexivity].
  - apply Z.ltb_ge in E.
    assert (Ewhole : substring0 text 200 = text).
    { unfold substring0. apply ChunkerMore.substring0_all. unfold len in *. lia. }
    rewrite Ewhole, append_nil_r. split; [lia |]. split; [reflexivity | lia].
Qed.

End SearchMore.

(** ** More on the calculation engine *)
Module CalcMore.
Import Js Calc.


(** X20. Only a custom calculation with a formula calls the regular
    expression engine or evaluates code: every other request is answered
    by the function itself, without any call out of the program. *)
Theorem executeCalculation_calls_out_for_custom_only (input : Input) :
  (String.eqb (calculation_type input) "custom" && truthyStr (formula input)) = false ->
  exists output, executeCalculation input = ret output.
Proof.
  intro H. unfold executeCalculation. cbv zeta.
  destruct (String.eqb (calculation_type input) "custom") eqn:Ecustom.
  - simpl in H. rewrite H. CalcProps.branch; eexists; reflexivity.
  - CalcProps.branch; eexists; reflexivity.
Qed.

Lemma executeCalculation_calls_out_for_custom_only_witness :
  (String.eqb (calculation_type Scenario.area4by5) "custom"
   && truthyStr (formula Scenario.area4by5)) = false
  /\ exists output, executeCalculation Scenario.area4by5 = ret output.
Proof.
  split; [reflexivity |].
  apply (executeCalculation_calls_out_for_custom_only Scenario.area4by5). reflexivity.
Defined.

(** X21. A custom calculation with a formula and no values evaluates the
    code ["use strict"; return (formula)]. When the evaluation gives a
    value that the template literal can convert to a string, the call
    returns the value with the explanation "Custom calculation: formula
    = value"; when the evaluation throws, or the conversion of the value
    throws (a symbol), the call returns the error "Invalid formula or
    values". *)
Theorem custom_without_values (w : World) (input : Input) (f : string) :
  calculation_type input = "custom" -> formula input = Some f -> f <> "" ->
  values input = [] ->
  run w (executeCalculation input)
  = match callFunction w (QUOTE ++ "use strict" ++ QUOTE ++ "; return (" ++ f ++ ")") with
    | Normal v =>
        match run w (toStringM v) with
        | Normal shown =>
            Normal (Success v ("Custom calculation: " ++ f ++ " = " ++ shown) "custom" [])
        | Thrown _ => Normal (Failure "Invalid formula or values")
        end
    | Thrown _ => Normal (Failure "Invalid formula or values")
    end.
Proof.
  intros Hty Hf Hne Hv. unfold executeCalculation. cbv zeta. rewrite Hty, Hf, Hv.
  change (("custom" =? "area")%string) with false.
  change (("custom" =? "volume")%string) with false.
  change (("custom" =? "linear")%string) with false.
  change (("custom" =? "weight")%string) with false.
  change (("custom" =? "conversion")%string) with false.
  change (("custom" =? "custom")%string) with true. cbv iota.
  destruct f as [| a f]; [congruence |]. cbn [truthyStr strOpt].
  rewrite CalcProps.run_tryCatch. unfold customBody. cbn [substitute].
  rewrite AgentProps.run_bindM. cbn [run ret].
  rewrite AgentProps.run_bindM. cbn [run].
  destruct (callFunction w _) as [v | e]; [| reflexivity].
  rewrite AgentProps.run_bindM.
  destruct (run w (toStringM v)) as [shown | e]; reflexivity.
Qed.

Lemma custom_without_values_witness :
  (calculation_type Scenario2.sixTimesSeven = "custom"
   /\ formula Scenario2.sixTimesSeven = Some "6 * 7"
   /\ values Scenario2.sixTimesSeven = [])
  /\ run Scenario2.answerWorld (executeCalculation Scenario2.sixTimesSeven)
     = Normal (Success (VNum 42%float) "Custom calculation: 6 * 7 = 42" "custom" [])
  /\ run Scenario2.symbolWorld (executeCalculation Scenario2.sixTimesSeven)
     = Normal (Failure "Invalid formula or values").
Proof.
  split; [repeat split |].
  assert (N : "6 * 7" <> "") by discriminate.
  split.
  - exact (custom_without_values Scenario2.answerWorld Scenario2.sixTimesSeven "6 * 7"
             eq_refl eq_refl N eq_refl).
  - exact (custom_without_values Scenario2.symbolWorld Scenario2.sixTimesSeven "6 * 7"
             eq_refl eq_refl N eq_refl).
Defined.



End CalcMore.

(** ** More on the agent *)
Module AgentMore.
Import Js Agent.






(** A formula that evaluates to a BigInt: the calculation succeeds, and
    the turn fails when the output is serialized. *)
Example bigint_result_fails_the_turn :
  run Scenario2.bigintWorld (Calc.executeCalculation Scenario2.sixTimesSeven)
  = Normal (Calc.Success (VOther (Normal "42") (Thrown "TypeError"))
              "Custom calculation: 6 * 7 = 42" "custom" [])
  /\ run Scenario2.bigintWorld
       (runAgent (Some Scenario.store)
          (Scenario.scripted (Scenario.asksFor (calculate_quantity Scenario2.sixTimesSeven))
                             (Scenario.says "The result is 42."))
          1 "What is 6 times 7?" [])
     = Thrown "TypeError".
Proof. split; vm_compute; reflexivity. Qed.

(** What a completed tool round has recorded: one entry per call, in the
    order of the calls, under the name of the tool called. *)
Lemma toolRound_trail (w : World) (db : Db.Connection) (userId : Z)
    (calls : list Llm.ToolCall) :
  forall st st',
    run w (toolRound db userId calls st) = Normal st' ->
    exists added,
      toolCalls st' = (toolCalls st ++ added)%list
      /\ map ToolCallResult.input added = map Llm.function calls
      /\ Forall (fun r => ToolCallResult.tool r = toolName (ToolCallResult.input r)) added.
Proof.
  induction calls as [| call calls IH]; intros st st' H.
  - cbn in H. injection H as <-. exists []. rewrite app_nil_r. auto.
  - cbn [toolRound] in H. cbv zeta in H. rewrite AgentProps.run_bindM in H.
    destruct (run w (dispatch db userId (Llm.function call))) as [[output cited] | e];
      [| discriminate].
    rewrite AgentProps.run_bindM in H.
    destruct (run w (stringify output)) as [serialized | e]; [| discriminate].
    apply IH in H. destruct H as [added [H1 [H2 H3]]]. cbn [toolCalls] in H1.
    exists (ToolCallResult.mk (toolName (Llm.function call)) (Llm.function call) output
            :: added).
    rewrite <- app_assoc in H1. split; [exact H1 |]. split.
    + cbn [map ToolCallResult.input]. now rewrite H2.
    + constructor; [reflexivity | exact H3].
Qed.

(** X23. The record of tool use: when the model asks for tool calls and
    the turn completes, [toolCalls] of the response holds one entry per
    call asked for, in the order asked, with the arguments of the call
    and under the name of the tool called; no call is skipped and none
    is added. *)
Theorem runAgent_audit_trail (w : World) (db : Db.Connection)
    (invokeLLM : Llm.InvokeParams -> Llm.InvokeResult) (userId : Z)
    (userMessage : string) (history : list Llm.Message)
    (assistantMessage : Llm.AssistantMessage) (call : Llm.ToolCall)
    (calls : list Llm.ToolCall) (response : AgentResponse.t) :
  (forall p, Llm.tools p = true -> firstMessage (invokeLLM p) = Some assistantMessage) ->
  Llm.tool_calls assistantMessage = Some (call :: calls) ->
  run w (runAgent db invokeLLM userId userMessage history) = Normal response ->
  map ToolCallResult.input (AgentResponse.toolCalls response)
  = map Llm.function (call :: calls)
  /\ Forall (fun r => ToolCallResult.tool r = toolName (ToolCallResult.input r))
            (AgentResponse.toolCalls response).
Proof.
  intros H1 Hcalls Hrun. unfold runAgent in Hrun. cbv zeta in Hrun.
  rewrite H1, Hcalls in Hrun by reflexivity. rewrite AgentProps.run_bindM in Hrun.
  destruct (run w (toolRound db userId (call :: calls) (mkRound [] [] [])))
    as [st |] eqn:E; [| discriminate].
  cbn [run ret] in Hrun. injection Hrun as <-. cbn [AgentResponse.toolCalls].
  apply toolRound_trail in E. destruct E as [added [E1 [E2 E3]]].
  cbn [toolCalls app] in E1. rewrite E1. auto.
Qed.

Lemma runAgent_audit_trail_witness :
  map ToolCallResult.input
      [ToolCallResult.mk "calculate_quantity" (calculate_quantity Scenario.area4by5)
         (CalculationOutput
            (Calc.Success (VNum 20%float) "Area = 4 × 5 = 20 square units" "area"
               [("length", 4%float); ("width", 5%float)]))]
  = [calculate_quantity Scenario.area4by5]
  /\ Forall (fun r => ToolCallResult.tool r = toolName (ToolCallResult.input r))
       [ToolCallResult.mk "calculate_quantity" (calculate_quantity Scenario.area4by5)
         (CalculationOutput
            (Calc.Success (VNum 20%float) "Area = 4 × 5 = 20 square units" "area"
               [("length", 4%float); ("width", 5%float)]))].
Proof.
  refine (runAgent_audit_trail Scenario2.lockedWorld (Some Scenario.store)
            (Scenario.scripted (Scenario.asksFor (calculate_quantity Scenario.area4by5))
                               (Scenario.says "The slab has 20 square units."))
            1 "What is the area of a 4 by 5 slab?" []
            (Llm.mkAssistant (Llm.Plain "")
               (Some [Llm.mkToolCall "call_1" (calculate_quantity Scenario.area4by5)]))
            (Llm.mkToolCall "call_1" (calculate_quantity Scenario.area4by5)) []
            (AgentResponse.mk (Some "The slab has 20 square units.") []
               [ToolCallResult.mk "calculate_quantity" (calculate_quantity Scenario.area4by5)
                  (CalculationOutput
                     (Calc.Success (VNum 20%float) "Area = 4 × 5 = 20 square units" "area"
                        [("length", 4%float); ("width", 5%float)]))])
            _ eq_refl _).
  - intros p Hp. unfold Scenario.scripted. rewrite Hp. reflexivity.
  - vm_compute. reflexivity.
Defined.

(** X24. A failing owner notification fails the turn: when the first
    tool call is [detect_conflicts] and some topic is found in more than
    one place, an exception of the notification escapes [runAgent], and
    the user gets no answer although every search succeeded. *)
Theorem notification_failure_fails_the_turn (w : World) (db : Db.Connection)
    (invokeLLM : Llm.InvokeParams -> Llm.InvokeResult) (userId : Z)
    (userMessage : string) (history : list Llm.Message)
    (assistantMessage : Llm.AssistantMessage) (call : Llm.ToolCall)
    (calls : list Llm.ToolCall) (topics : list string) (e : string) :
  (forall p, Llm.tools p = true -> firstMessage (invokeLLM p) = Some assistantMessage) ->
  Llm.tool_calls assistantMessage = Some (call :: calls) ->
  Llm.function call = detect_conflicts topics ->
  existsb (fun r => 1 <? count (snd r)) (conflictSearch db userId topics) = true ->
  notifyOwner w "Specification Conflict Detected"
    ("A user has identified potential specification conflicts in topics: "
     ++ JsString.join ", " topics) = Thrown e ->
  run w (runAgent db invokeLLM userId userMessage history) = Thrown e.
Proof.
  intros H1 Hcalls Hcall Hfound Hnotify. unfold runAgent. cbv zeta.
  rewrite H1, Hcalls by reflexivity. rewrite AgentProps.run_bindM.
  cbn [toolRound]. cbv zeta. rewrite AgentProps.run_bindM, Hcall.
  cbn [dispatch]. cbv zeta. rewrite Hfound. cbn [run]. rewrite Hnotify. reflexivity.
Qed.

Lemma notification_failure_fails_the_turn_witness :
  existsb (fun r => 1 <? count (snd r)) (conflictSearch (Some Scenario.store) 1 ["shall"])
  = true
  /\ run Scenario2.deafWorld
       (runAgent (Some Scenario.store)
          (Scenario.scripted (Scenario.asksFor (detect_conflicts ["shall"]))
                             (Scenario.says "Two requirements were found."))
          1 "Do the documents agree?" [])
     = Thrown "NotificationError".
Proof.
  split; [vm_compute; reflexivity |].
  refine (notification_failure_fails_the_turn Scenario2.deafWorld (Some Scenario.store)
            (Scenario.scripted (Scenario.asksFor (detect_conflicts ["shall"]))
                               (Scenario.says "Two requirements were found."))
            1 "Do the documents agree?" []
            (Llm.mkAssistant (Llm.Plain "")
               (Some [Llm.mkToolCall "call_1" (detect_conflicts ["shall"])]))
            (Llm.mkToolCall "call_1" (detect_conflicts ["shall"])) [] ["shall"]
            "NotificationError" _ eq_refl eq_refl _ eq_refl).
  - intros p Hp. unfold Scenario.scripted. rewrite Hp. reflexivity.
  - vm_compute. reflexivity.
Defined.

Lemma mapSet_sets key c m : In (key, c) (mapSet key c m).
Proof.
  induction m as [| [k old] m IH]; simpl; [now left |].
  destruct (String.eqb k key) eqn:E.
  - apply String.eqb_eq in E. subst k. now left.
  - now right.
Qed.

Lemma mapSet_keeps key c m k' c' :
  In (k', c') m -> k' <> key -> In (k', c') (mapSet key c m).
Proof.
  intros Hin Hne. induction m as [| [k old] m IH]; simpl in *; [contradiction |].
  destruct (String.eqb k key) eqn:E.
  - apply String.eqb_eq in E. subst k.
    destruct Hin as [[= <- <-] | Hin]; [congruence | now right].
  - destruct Hin as [Hin | Hin]; [now left | right; now apply IH].
Qed.

Lemma mapSet_length key c m : (List.length (mapSet key c m) <= S (List.length m))%nat.
Proof.
  induction m as [| [k old] m IH]; simpl; [lia |].
  destruct (String.eqb k key); simpl; lia.
Qed.

Lemma mapSet_key_stays key c m k' :
  In k' (map fst m) -> In k' (map fst (mapSet key c m)).
Proof.
  rewrite AgentProps.mapSet_keys. destruct (existsb _ _); [auto |].
  intro H. apply in_or_app. now left.
Qed.

Lemma fold_values cs :
  forall m k c,
    In (k, c) (fold_left (fun m c => mapSet (citationKey c) c m) cs m) ->
    In (k, c) m \/ In c cs.
Proof.
  induction cs as [| c0 cs IH]; intros m k c H; simpl in *; [now left |].
  apply IH in H. destruct H as [H | H]; [| now right; right].
  apply AgentProps.mapSet_In in H. destruct H as [[_ ->] | H]; [right; now left | now left].
Qed.

Lemma fold_keys_stay cs :
  forall m k,
    In k (map fst m) ->
    In k (map fst (fold_left (fun m c => mapSet (citationKey c) c m) cs m)).
Proof.
  induction cs as [| c0 cs IH]; intros m k H; simpl; [exact H |].
  apply IH, mapSet_key_stays, H.
Qed.

Lemma fold_length cs :
  forall m,
    (List.length (fold_left (fun m c => mapSet (citationKey c) c m) cs m)
     <= List.length m + List.length cs)%nat.
Proof.
  induction cs as [| c0 cs IH]; intro m; simpl; [lia |].
  specialize (IH (mapSet (citationKey c0) c0 m)).
  pose proof (mapSet_length (citationKey c0) c0 m). lia.
Qed.

Lemma fold_entry_stays cs :
  forall m k c,
    In (k, c) m -> Forall (fun c' => citationKey c' <> k) cs ->
    In (k, c) (fold_left (fun m c => mapSet (citationKey c) c m) cs m).
Proof.
  induction cs as [| c0 cs IH]; intros m k c Hin Hcs; simpl; [exact Hin |].
  inversion Hcs as [| ? ? Hc0 Hrest]; subst.
  apply IH; [| exact Hrest]. apply mapSet_keeps; [exact Hin | congruence].
Qed.

(** X25. What the deduplication of citations keeps: every citation of
    the final list was found by a tool call; every citation found is
    represented by one of the same key (document id followed by
    excerpt); the last citation found under a key is the one kept; and
    the final list is no longer than the list found. *)
Theorem dedupe_contract (cs : list Citation.t) :
  incl (dedupe cs) cs
  /\ (forall c, In c cs ->
        exists c', In c' (dedupe cs) /\ citationKey c' = citationKey c)
  /\ (forall before c after,
        cs = (before ++ c :: after)%list ->
        Forall (fun c' => citationKey c' <> citationKey c) after ->
        In c (dedupe cs))
  /\ (List.length (dedupe cs) <= List.length cs)%nat.
Proof.
  unfold dedupe.
  destruct (AgentProps.fold_keyed cs [] AgentProps.keyed_nil) as [Hk _].
  repeat split.
  - intros c Hc. apply in_map_iff in Hc. destruct Hc as [[k c'] [<- Hin]].
    apply fold_values in Hin. destruct Hin as [[] | Hin]. exact Hin.
  - intros c Hc. apply in_split in Hc. destruct Hc as [before [after ->]].
    assert (Hkey : In (citationKey c)
                     (map fst (fold_left (fun m c => mapSet (citationKey c) c m)
                                 (before ++ c :: after) []))).
    { rewrite fold_left_app. cbn [fold_left]. apply fold_keys_stay.
      apply in_map_iff. exists (citationKey c, c). split; [reflexivity | apply mapSet_sets]. }
    apply in_map_iff in Hkey. destruct Hkey as [[k c'] [Ek Hin]]. cbn in Ek. subst k.
    exists c'. split.
    + apply in_map_iff. exists (citationKey c, c'). split; [reflexivity | exact Hin].
    + symmetry. exact (Hk _ _ Hin).
  - intros before c after -> Hafter.
    apply in_map_iff. exists (citationKey c, c). split; [reflexivity |].
    rewrite fold_left_app. cbn [fold_left].
    apply fold_entry_stays; [apply mapSet_sets | exact Hafter].
  - rewrite length_map. apply (fold_length cs []).
Qed.

(** X26. Schedule analysis reads schedules only: [analyze_schedule]
    always completes, and every citation it adds names a document row of
    the user whose type is [cpm_schedule]. *)
Theorem analyze_schedule_cites_schedules_only (w : World) (t : Db.Tables) (userId : Z)
    (analysis_type : string) :
  exists output cited,
    run w (dispatch (Some t) userId (analyze_schedule analysis_type))
    = Normal (output, cited)
    /\ Forall (fun c =>
                 exists d, In d (Db.documents t) /\ Document.userId d = userId
                           /\ Document.id d = Citation.documentId c
                           /\ Document.documentType d = cpm_schedule)
              cited.
Proof.
  cbn [dispatch]. cbv zeta. eexists. eexists. split; [reflexivity |].
  apply Forall_forall. intros c Hc.
  apply in_map_iff in Hc. destruct Hc as [hit [<- Hhit]].
  unfold searchTool, Search.searchDocuments, Search.matchingChunks, Search.matchingAll in Hhit.
  apply in_map_iff in Hhit. destruct Hhit as [chunk [<- Hchunk]].
  apply SearchMore.In_firstn in Hchunk. apply filter_In in Hchunk.
  destruct Hchunk as [_ Hmatch].
  unfold Search.chunkMatches in Hmatch.
  destruct (existsb _ _) eqn:Hrel in Hmatch; [| discriminate].
  apply existsb_exists in Hrel. destruct Hrel as [i [Hi Ei]]. apply Z.eqb_eq in Ei.
  apply in_map_iff in Hi. destruct Hi as [d [Hid Hd]].
  cbn [Search.relevantDocs] in Hd. apply filter_In in Hd. destruct Hd as [Hd Hty].
  apply DbProps.getDocumentsByUserId_In in Hd. destruct Hd as [Hd Hu].
  exists d. cbn. repeat split; auto; try congruence.
  destruct (Document.documentType d); cbn in Hty; try discriminate. reflexivity.
Qed.

End AgentMore.

(** ** The streaming wrapper *)
Module StreamProps.
Import JsString Js Stream StringFacts.

Lemma trimEnd_space (s : string) : trimEnd (s ++ " ") = trimEnd s.
Proof.
  induction s as [| c s IH]; [reflexivity |].
  cbn [append trimEnd]. now rewrite IH.
Qed.

(** A space at the end does not show after [trim]. *)
Lemma trim_space (s : string) : trim (s ++ " ") = trim s.
Proof.
  unfold trim. induction s as [| c s IH]; [reflexivity |].
  cbn [append trimStart]. destruct (isWhiteSpace c); [exact IH |].
  exact (trimEnd_space (String c s)).
Qed.

Lemma splitScanOn_nonempty sep s cur : splitScanOn sep s cur <> [].
Proof.
  revert cur. induction s as [| c s IH]; intro cur; simpl; [discriminate |].
  destruct (Ascii.eqb c sep); [discriminate | apply IH].
Qed.

Lemma join_cons sep p rest : rest <> [] -> join sep (p :: rest) = p ++ sep ++ join sep rest.
Proof. destruct rest; [congruence | reflexivity]. Qed.

Lemma string_of_list_ascii_snoc (l : list ascii) (c : ascii) (s : string) :
  string_of_list_ascii (l ++ [c]) ++ s = string_of_list_ascii l ++ String c s.
Proof. induction l as [| a l IH]; simpl; [reflexivity | now rewrite IH]. Qed.

(** [s.split(' ').join(' ')] gives [s] back. *)
Lemma join_splitScanOn (s : string) :
  forall cur, join " " (splitScanOn " "%char s cur) = string_of_list_ascii (rev cur) ++ s.
Proof.
  induction s as [| c s IH]; intro cur.
  - cbn. now rewrite append_nil_r.
  - cbn [splitScanOn]. destruct (Ascii.eqb c " "%char) eqn:E.
    + apply Ascii.eqb_eq in E. subst c.
      rewrite join_cons by apply splitScanOn_nonempty. rewrite IH. reflexivity.
    + rewrite IH. cbn [rev]. apply string_of_list_ascii_snoc.
Qed.

Lemma join_splitOnSpace (s : string) : join " " (splitOnSpace s) = s.
Proof. unfold splitOnSpace. now rewrite join_splitScanOn. Qed.

(** The steps of the content loop: one step for every three words
    begun, the last of which is all words joined and trimmed. *)
Lemma contentSteps_spec (n : nat) :
  forall words accumulated,
    (List.length words <= n)%nat -> words <> [] ->
    contentSteps words accumulated <> []
    /\ last (contentSteps words accumulated) ""
       = trim (accumulated ++ join " " words ++ " ")
    /\ (3 * List.length (contentSteps words accumulated) < List.length words + 3)%nat
    /\ (List.length words <= 3 * List.length (contentSteps words accumulated))%nat.
Proof.
  induction n as [| n IH]; intros words accumulated Hn Hne.
  - destruct words; [congruence | simpl in Hn; lia].
  - destruct words as [| a [| b [| c rest]]]; [congruence | | |].
    + cbn. repeat split; try lia. discriminate.
    + cbn. repeat split; try lia. discriminate.
    + cbn [contentSteps]. cbv zeta. destruct rest as [| d rest].
      * cbn. repeat split; try lia. discriminate.
      * set (rest' := d :: rest) in *.
        assert (Hrest : rest' <> []) by discriminate.
        destruct (IH rest' (accumulated ++ join " " [a; b; c] ++ " ")) as [H1 [H2 [H3 H4]]];
          [cbn [List.length] in Hn; lia | exact Hrest |].
        split; [discriminate |]. split; [| cbn [List.length]; lia].
        destruct (contentSteps rest' (accumulated ++ join " " [a; b; c] ++ " ")) as [| x l] eqn:E;
          [congruence |].
        cbn [last]. cbn [last] in H2. rewrite H2. f_equal.
        assert (J : join " " (a :: b :: c :: rest')
                    = join " " [a; b; c] ++ " " ++ join " " rest').
        { rewrite (join_cons " " a (b :: c :: rest')) by discriminate.
          rewrite (join_cons " " b (c :: rest')) by discriminate.
          rewrite (join_cons " " c rest') by exact Hrest.
          rewrite (join_cons " " a [b; c]) by discriminate.
          rewrite (join_cons " " b [c]) by discriminate.
          change (join " " [c]) with c. rewrite !append_assoc. reflexivity. }
        rewrite J, !append_assoc. reflexivity.
Qed.

(** X27. What the stream of a response with a content yields, in this
    order: one [tool] event per tool call, the content steps, one
    [citation] event per citation and one [done] event with the
    response. There is at least one content step and one for every
    three words begun, and the last content step is the whole content,
    trimmed. *)
Theorem yields_contract (response : AgentResponse.t) (text : string) :
  AgentResponse.content response = Some text ->
  exists steps,
    yields response
    = ((map tool (AgentResponse.toolCalls response)
        ++ map content steps
        ++ map citation (AgentResponse.citations response)
        ++ [done response])%list, Normal tt)
    /\ steps <> []
    /\ last steps "" = trim text
    /\ (3 * List.length steps < List.length (splitOnSpace text) + 3)%nat
    /\ (List.length (splitOnSpace text) <= 3 * List.length steps)%nat.
Proof.
  intro Hc. exists (contentSteps (splitOnSpace text) "").
  unfold yields. rewrite Hc. split; [reflexivity |].
  destruct (contentSteps_spec (List.length (splitOnSpace text)) (splitOnSpace text) "")
    as [H1 [H2 [H3 H4]]]; [lia | apply splitScanOn_nonempty |].
  repeat split; try assumption.
  rewrite H2. cbn [append]. rewrite join_splitOnSpace. apply trim_space.
Qed.

Lemma yields_contract_witness :
  AgentResponse.content Scenario2.sevenWords = Some "one two three four five six seven"
  /\ exists steps,
       yields Scenario2.sevenWords
       = ((map tool (AgentResponse.toolCalls Scenario2.sevenWords)
           ++ map content steps
           ++ map citation (AgentResponse.citations Scenario2.sevenWords)
           ++ [done Scenario2.sevenWords])%list, Normal tt)
       /\ steps <> []
       /\ last steps "" = trim "one two three four five six seven"
       /\ (3 * List.length steps
           < List.length (splitOnSpace "one two three four five six seven") + 3)%nat
       /\ (List.length (splitOnSpace "one two three four five six seven")
           <= 3 * List.length steps)%nat.
Proof.
  split; [reflexivity |].
  exact (yields_contract Scenario2.sevenWords "one two three four five six seven" eq_refl).
Defined.

(** X28. A turn whose second model call brings no message breaks the
    stream: in every run in which the tool round completes,
    [runAgentStream] yields the [tool] events, at least one, and then
    throws, without any [content], [citation] or [done] event. *)
Theorem runAgentStream_without_final_message (w : World) (db : Db.Connection)
    (invokeLLM : Llm.InvokeParams -> Llm.InvokeResult) (userId : Z)
    (userMessage : string) (history : list Llm.Message)
    (assistantMessage : Llm.AssistantMessage) (call : Llm.ToolCall)
    (calls : list Llm.ToolCall) (response : AgentResponse.t) :
  (forall p, Llm.tools p = true -> Agent.firstMessage (invokeLLM p) = Some assistantMessage) ->
  Llm.tool_calls assistantMessage = Some (call :: calls) ->
  (forall p, Llm.tools p = false -> Agent.firstMessage (invokeLLM p) = None) ->
  run w (Agent.runAgent db invokeLLM userId userMessage history) = Normal response ->
  run w (runAgentStream db invokeLLM userId userMessage history)
  = Normal (map tool (AgentResponse.toolCalls response), Thrown "TypeError")
  /\ AgentResponse.toolCalls response <> [].
Proof.
  intros H1 Hcalls H2 Hrun.
  destruct (AgentProps.runAgent_second_invocation_no_fallback
              w db invokeLLM userId userMessage history assistantMessage call calls
              response H1 Hcalls H2 Hrun) as [Hnone Hne].
  split; [| exact Hne].
  unfold runAgentStream. rewrite AgentProps.run_bindM, Hrun. cbn [run ret].
  unfold yields. rewrite Hnone. reflexivity.
Qed.

Lemma runAgentStream_without_final_message_witness :
  run Scenario2.lockedWorld
      (runAgentStream (Some Scenario.store)
         (Scenario.scripted (Scenario.asksFor (calculate_quantity Scenario.area4by5))
                            Scenario.noMessage)
         1 "What is the area of a 4 by 5 slab?" [])
  = Normal
      ([tool (ToolCallResult.mk "calculate_quantity" (calculate_quantity Scenario.area4by5)
                (CalculationOutput
                   (Calc.Success (VNum 20%float) "Area = 4 × 5 = 20 square units" "area"
                      [("length", 4%float); ("width", 5%float)])))],
       Thrown "TypeError")
  /\ [ToolCallResult.mk "calculate_quantity" (calculate_quantity Scenario.area4by5)
        (CalculationOutput
           (Calc.Success (VNum 20%float) "Area = 4 × 5 = 20 square units" "area"
              [("length", 4%float); ("width", 5%float)]))] <> [].
Proof.
  refine (runAgentStream_without_final_message Scenario2.lockedWorld (Some Scenario.store)
            (Scenario.scripted (Scenario.asksFor (calculate_quantity Scenario.area4by5))
                               Scenario.noMessage)
            1 "What is the area of a 4 by 5 slab?" []
            (Llm.mkAssistant (Llm.Plain "")
               (Some [Llm.mkToolCall "call_1" (calculate_quantity Scenario.area4by5)]))
            (Llm.mkToolCall "call_1" (calculate_quantity Scenario.area4by5)) []
            (AgentResponse.mk None []
               [ToolCallResult.mk "calculate_quantity" (calculate_quantity Scenario.area4by5)
                  (CalculationOutput
                     (Calc.Success (VNum 20%float) "Area = 4 × 5 = 20 square units" "area"
                        [("length", 4%float); ("width", 5%float)]))])
            _ eq_refl _ _).
  - intros p Hp. unfold Scenario.scripted. rewrite Hp. reflexivity.
  - intros p Hp. unfold Scenario.scripted. rewrite Hp. reflexivity.
  - vm_compute. reflexivity.
Defined.

End StreamProps.
